(** * ShmCreate.c: create-or-open, size query and unlink of a POSIX
      shared-memory object

    The C file is three thin wrappers around [shm_open], [fstat],
    [ftruncate], [close] and [shm_unlink] plus a demonstration [main].
    The wrappers are embedded as functions of a small state monad whose
    state is a model of the part of the operating system they talk to:
    the shared-memory namespace, the objects with their sizes, the
    descriptor table of the calling process, and the record of the calls
    made and of the diagnostics printed. *)

From stdpp Require Import gmap strings list fin_maps fin_sets.

Local Open Scope Z_scope.

(** ** C integer types

    [long] and [off_t] are 64-bit two's-complement integers (LP64); a value
    is kept as a [Z] and the cast [(long)] wraps it. *)

Definition LONG_MAX : Z := 2 ^ 63 - 1.
Definition LONG_MIN : Z := - 2 ^ 63.

Definition to_long (z : Z) : Z := (z + 2 ^ 63) mod 2 ^ 64 - 2 ^ 63.

(** Constants of <fcntl.h> and <stdlib.h> (Linux values). *)
Definition O_RDWR : Z := 2.
Definition O_CREAT : Z := 64.
Definition EXIT_FAILURE : Z := 1.

(** ** The operating system

    [shm_open], [fstat], [ftruncate], [close], [shm_unlink], [perror] and
    [exit] are not code of ShmCreate.c: they belong to the C library and
    the kernel.  They are modelled here after POSIX, and after Linux where
    POSIX leaves a choice, as far as the wrappers can observe them. *)

(** One entry of the record of what the process did: a system call with
    its arguments and return value, or a line [perror] wrote to the
    standard error stream (the prefix it was given). *)
Inductive event : Type :=
  | EvShmOpen (name : string) (ret : Z)
  | EvFstat (fd : Z) (ret : Z)
  | EvFtruncate (fd : Z) (length : Z) (ret : Z)
  | EvClose (fd : Z) (ret : Z)
  | EvShmUnlink (name : string) (ret : Z)
  | EvPerror (s : string).

Global Instance event_eq_dec : EqDecision event.
Proof. solve_decision. Defined.

(** [names] is the shared-memory namespace, [objs] gives every object its
    size in bytes, [fdtab] is the descriptor table of the process.  A name
    that is unlinked leaves [names]; its object stays in [objs], where the
    descriptors still open on it find it.

    A call can fail for reasons this model does not track (permissions,
    resource limits, a name the host rejects, an I/O error).  [oracle]
    decides that: the [n]-th system call of the run fails for such a reason
    when [oracle n] is [true]; [clock] counts the system calls made. *)
Record World : Type := mkWorld {
  names : gmap string nat;
  objs : gmap nat N;
  fdtab : gmap nat nat;
  oracle : nat → bool;
  clock : nat;
  trace : list event
}.

Definition fault (w : World) : bool := oracle w (clock w).

(** The system call [e] has been made. *)
Definition called (e : event) (w : World) : World :=
  mkWorld (names w) (objs w) (fdtab w) (oracle w) (S (clock w)) (trace w ++ [e]).

(** A diagnostic has been printed. *)
Definition printed (s : string) (w : World) : World :=
  mkWorld (names w) (objs w) (fdtab w) (oracle w) (clock w)
    (trace w ++ [EvPerror s]).

Definition set_names (m : gmap string nat) (w : World) : World :=
  mkWorld m (objs w) (fdtab w) (oracle w) (clock w) (trace w).
Definition set_objs (m : gmap nat N) (w : World) : World :=
  mkWorld (names w) m (fdtab w) (oracle w) (clock w) (trace w).
Definition set_fdtab (m : gmap nat nat) (w : World) : World :=
  mkWorld (names w) (objs w) m (oracle w) (clock w) (trace w).

(** The lowest key a table does not use: the descriptor [open] hands out,
    and the identity of a new object. *)
Definition lowest_free {A} (m : gmap nat A) : nat :=
  default (size m)
    (List.find (λ n, bool_decide (m !! n = None)) (seq 0 (size m))).

(** The object an open descriptor refers to. *)
Definition fd_obj (fd : Z) (w : World) : option nat :=
  if fd <? 0 then None else fdtab w !! Z.to_nat fd.

Record stat : Type := mkStat { st_size : Z }.

(** ** Processes: state passing with [exit] *)

Inductive outcome (A : Type) : Type :=
  | Returned (a : A)
  | Exited (status : Z).
Arguments Returned {A} a.
Arguments Exited {A} status.

Definition proc (A : Type) : Type := World → outcome A * World.

Definition ret {A} (a : A) : proc A := λ w, (Returned a, w).

Definition bind {A B} (c : proc A) (k : A → proc B) : proc B :=
  λ w, match c w with
       | (Returned a, w') => k a w'
       | (Exited s, w') => (Exited s, w')
       end.

Notation "'let*' x ':=' c 'in' k" := (bind c (λ x, k))
  (at level 10, x pattern, c at level 100, k at level 200).
Notation "c ';;' k" := (bind c (λ _, k))
  (at level 100, k at level 200, right associativity).

(** [exit(status)]: the process ends here. *)
Definition exit {A} (status : Z) : proc A := λ w, (Exited status, w).


(** ** System calls

    Every call returns what the C function returns: a descriptor or 0 when
    it succeeds, -1 when it fails.  It fails when the oracle says so, and
    for the reasons the state shows: a descriptor that is not open
    ([EBADF]), a name that does not exist ([ENOENT]), a negative length
    ([EINVAL]), a size too large to report ([EOVERFLOW]). *)

(** [shm_open(name, oflag, mode)].  An existing name is opened; a missing
    one is created with size zero when [O_CREAT] is set.  The descriptor is
    the lowest one not in use. *)
Definition shm_open (name : string) (oflag mode : Z) : proc Z := λ w,
  if fault w then (Returned (-1), called (EvShmOpen name (-1)) w)
  else
    let fd := lowest_free (fdtab w) in
    match names w !! name with
    | Some o =>
        (Returned (Z.of_nat fd),
         called (EvShmOpen name (Z.of_nat fd)) (set_fdtab (<[fd := o]> (fdtab w)) w))
    | None =>
        if Z.eqb (Z.land oflag O_CREAT) 0
        then (Returned (-1), called (EvShmOpen name (-1)) w)
        else
          let o := lowest_free (objs w) in
          (Returned (Z.of_nat fd),
           called (EvShmOpen name (Z.of_nat fd))
             (set_fdtab (<[fd := o]> (fdtab w))
               (set_objs (<[o := 0%N]> (objs w))
                 (set_names (<[name := o]> (names w)) w))))
    end.

(** [fstat(fd, &st)]: the return value and the structure filled in (left
    zeroed when the call fails).  A size that [off_t] cannot hold makes the
    call fail ([EOVERFLOW]). *)
Definition fstat (fd : Z) : proc (Z * stat) := λ w,
  if fault w then (Returned (-1, mkStat 0), called (EvFstat fd (-1)) w)
  else
    match fd_obj fd w ≫= (objs w !!.) with
    | Some sz =>
        if Z.of_N sz <=? LONG_MAX
        then (Returned (0, mkStat (Z.of_N sz)), called (EvFstat fd 0) w)
        else (Returned (-1, mkStat 0), called (EvFstat fd (-1)) w)
    | None => (Returned (-1, mkStat 0), called (EvFstat fd (-1)) w)
    end.

(** [ftruncate(fd, length)]: a negative length is refused. *)
Definition ftruncate (fd : Z) (length : Z) : proc Z := λ w,
  if fault w then (Returned (-1), called (EvFtruncate fd length (-1)) w)
  else
    match fd_obj fd w with
    | Some o =>
        if length <? 0
        then (Returned (-1), called (EvFtruncate fd length (-1)) w)
        else (Returned 0,
              called (EvFtruncate fd length 0)
                (set_objs (<[o := Z.to_N length]> (objs w)) w))
    | None => (Returned (-1), called (EvFtruncate fd length (-1)) w)
    end.

(** [close(fd)].  As on Linux, an open descriptor is released whatever the
    call returns. *)
Definition close (fd : Z) : proc Z := λ w,
  match fd_obj fd w with
  | Some _ =>
      let r := if fault w then -1 else 0 in
      (Returned r,
       called (EvClose fd r) (set_fdtab (delete (Z.to_nat fd) (fdtab w)) w))
  | None => (Returned (-1), called (EvClose fd (-1)) w)
  end.

(** [shm_unlink(name)]. *)
Definition shm_unlink (name : string) : proc Z := λ w,
  if fault w then (Returned (-1), called (EvShmUnlink name (-1)) w)
  else
    match names w !! name with
    | Some _ =>
        (Returned 0,
         called (EvShmUnlink name 0) (set_names (delete name (names w)) w))
    | None => (Returned (-1), called (EvShmUnlink name (-1)) w)
    end.

(** [perror(s)]: one line on the standard error stream. *)
Definition perror (s : string) : proc unit := λ w, (Returned tt, printed s w).

(** ** The functions of ShmCreate.c *)

(** <<
long get_shared_memory_size(int fd) {
    struct stat shm_stat;
    if (fstat(fd, &shm_stat) == -1) {
        perror("fstat");
        return -1;
    }
    return (long)shm_stat.st_size;
}
>> *)
Definition get_shared_memory_size (fd : Z) : proc Z :=
  let* (r, shm_stat) := fstat fd in
  if r =? -1 then
    perror "fstat" ;;
    ret (-1)
  else
    ret (to_long (st_size shm_stat)).

(** <<
int create_shared_memory(const char *name, long size) {
    int fd = shm_open(name, O_CREAT | O_RDWR, 0666);
    if (fd < 0) {
        perror("shm_open");
        return -1;
    }
    long already_size = get_shared_memory_size(fd);
    if (already_size > 0) {
        return fd;
    }

    if (ftruncate(fd, size) == -1) {
        perror("ftruncate");
        close(fd);
        return -1;
    }

    return fd;
}
>>
    The mode 0666 is 438. *)
Definition create_shared_memory (name : string) (size : Z) : proc Z :=
  let* fd := shm_open name (Z.lor O_CREAT O_RDWR) 438 in
  if fd <? 0 then
    perror "shm_open" ;;
    ret (-1)
  else
    let* already_size := get_shared_memory_size fd in
    if already_size >? 0 then
      ret fd
    else
      let* r := ftruncate fd size in
      if r =? -1 then
        perror "ftruncate" ;;
        close fd ;;
        ret (-1)
      else
        ret fd.

(** <<
void unlink_shared_memory(const char *name) {
    if (shm_unlink(name) == -1) {
        perror("shm_unlink");
    }
}
>> *)
Definition unlink_shared_memory (name : string) : proc unit :=
  let* r := shm_unlink name in
  if r =? -1 then
    perror "shm_unlink"
  else
    ret tt.

(** <<
int main() {
    const char *shm_name = "/myshm";
    size_t shm_size = 1024;
    int shm_fd = create_shared_memory(shm_name, shm_size);
    if (shm_fd < 0) {
        exit(EXIT_FAILURE);
    }
    close(shm_fd);
    unlink_shared_memory(shm_name);
    return 0;
}
>> *)
Definition main : proc Z :=
  let shm_name := "/myshm"%string in
  let shm_size := 1024 in
  let* shm_fd := create_shared_memory shm_name (to_long shm_size) in
  (if shm_fd <? 0 then exit EXIT_FAILURE else ret tt) ;;
  close shm_fd ;;
  unlink_shared_memory shm_name ;;
  ret 0.

(** ** Test worlds *)

Definition no_faults : nat → bool := λ _, false.
Definition fail_at (k : nat) : nat → bool := λ n, Nat.eqb n k.

(** A process that has just started: descriptors 0, 1 and 2 are open on the
    terminal (object 0) and no shared-memory name exists. *)
Definition boot (orc : nat → bool) : World :=
  mkWorld ∅ {[0%nat := 0%N]}
    {[0%nat := 0%nat; 1%nat := 0%nat; 2%nat := 0%nat]} orc 0 [].

(** The same process when [name] already names an object of [sz] bytes. *)
Definition boot_with (name : string) (sz : N) (orc : nat → bool) : World :=
  mkWorld {[name := 1%nat]} {[0%nat := 0%N; 1%nat := sz]}
    {[0%nat := 0%nat; 1%nat := 0%nat; 2%nat := 0%nat]} orc 0 [].

(** The scenario of the specification: create with 4096 and query, open
    again with 8192 and query, unlink, create with 2048 and query. *)
Definition scenario : proc (Z * Z * Z) :=
  let* fd1 := create_shared_memory "/testshm" 4096 in
  let* s1 := get_shared_memory_size fd1 in
  let* fd2 := create_shared_memory "/testshm" 8192 in
  let* s2 := get_shared_memory_size fd2 in
  unlink_shared_memory "/testshm" ;;
  let* fd3 := create_shared_memory "/testshm" 2048 in
  let* s3 := get_shared_memory_size fd3 in
  ret (s1, s2, s3).

(** The next [n] system calls do not fail for a reason outside the model. *)
Definition quiet (n : nat) (w : World) : Prop :=
  ∀ k, (k < n)%nat → oracle w (k + clock w)%nat = false.

(** What the size query leaves in the record: the [fstat] call and, when it
    failed, the diagnostic. *)
Definition stat_events (fd : Z) (ok : bool) : list event :=
  if ok then [EvFstat fd 0] else [EvFstat fd (-1); EvPerror "fstat"].

(** [create_shared_memory] failed: the record of the call shows the open or
    the resize returning -1. *)
Definition create_failed (name : string) (size : Z) (evs : list event) : Prop :=
  EvShmOpen name (-1) ∈ evs ∨ ∃ fd, EvFtruncate fd size (-1) ∈ evs.

(** The host's view of a name.  The C library's [shm_open] and [shm_unlink]
    skip the leading slashes of a name before they look it up, so that
    "alias", "/alias" and "//alias" designate one object.  The namespace
    [names] keeps a name as it was given; two names are different names for
    the host when they differ once their leading slashes are removed, and
    what is stated about the other names of the namespace is stated about
    the names that differ in this sense.  [slash] is the character "/". *)
Definition slash : Ascii.ascii := Ascii.ascii_of_nat 47.

Fixpoint strip_slashes (s : string) : string :=
  match s with
  | String c s' => if Ascii.eqb c slash then strip_slashes s' else s
  | EmptyString => s
  end.

(** What running [c] from [w] adds to the record. *)
Definition events_of {A} (c : proc A) (w : World) : list event :=
  drop (length (trace w)) (trace (c w).2).

(** The C function whose failure an event records.  The wrappers never look
    at what [close] returns, so a failed [close] is not counted. *)
Definition failed_call (e : event) : option string :=
  match e with
  | EvShmOpen _ r => if r =? -1 then Some "shm_open"%string else None
  | EvFstat _ r => if r =? -1 then Some "fstat"%string else None
  | EvFtruncate _ _ r => if r =? -1 then Some "ftruncate"%string else None
  | EvShmUnlink _ r => if r =? -1 then Some "shm_unlink"%string else None
  | EvClose _ _ => None
  | EvPerror _ => None
  end.

(** The prefix of a line on the standard error stream. *)
Definition diagnostic (e : event) : option string :=
  match e with
  | EvPerror s => Some s
  | _ => None
  end.

(** A system call, as opposed to a line printed. *)
Definition is_syscall (e : event) : bool :=
  match e with
  | EvPerror _ => false
  | _ => true
  end.

(** The summary of one call [create_shared_memory name size] from [w] with
    result [r] and final state [w'], used to reason about calls in sequence.
    [resolved] gives the object [o] of the name once the open has succeeded
    and the sizes [objs0] at that point; [sized_at] says that the size query
    goes through and reports a positive size. *)
Definition resolved (name : string) (w : World) (o : nat)
    (objs0 : gmap nat N) : Prop :=
  (names w !! name = Some o ∧ objs0 = objs w) ∨
  (names w !! name = None ∧ o = lowest_free (objs w) ∧
   objs0 = <[o := 0%N]> (objs w)).

Definition sized_at (w : World) (objs0 : gmap nat N) (o : nat) : Prop :=
  oracle w (S (clock w)) = false ∧
  ∃ s, objs0 !! o = Some s ∧ 0 < Z.of_N s ≤ LONG_MAX.

Inductive create_effect (name : string) (size : Z) (w : World)
    (r : Z) (w' : World) : Prop :=
  | open_failed :
      fault w = true → r = -1 →
      names w' = names w → objs w' = objs w → fdtab w' = fdtab w →
      clock w' = S (clock w) →
      create_effect name size w r w'
  | attached o objs0 :
      fault w = false → resolved name w o objs0 → sized_at w objs0 o →
      r = Z.of_nat (lowest_free (fdtab w)) →
      names w' = <[name := o]> (names w) → objs w' = objs0 →
      fdtab w' = <[lowest_free (fdtab w) := o]> (fdtab w) →
      clock w' = S (S (clock w)) →
      create_effect name size w r w'
  | resized o objs0 :
      fault w = false → resolved name w o objs0 → ¬ sized_at w objs0 o →
      oracle w (S (S (clock w))) = false → 0 ≤ size →
      r = Z.of_nat (lowest_free (fdtab w)) →
      names w' = <[name := o]> (names w) →
      objs w' = <[o := Z.to_N size]> objs0 →
      fdtab w' = <[lowest_free (fdtab w) := o]> (fdtab w) →
      clock w' = S (S (S (clock w))) →
      create_effect name size w r w'
  | resize_failed o objs0 :
      fault w = false → resolved name w o objs0 → ¬ sized_at w objs0 o →
      oracle w (S (S (clock w))) = true ∨ size < 0 →
      r = -1 →
      names w' = <[name := o]> (names w) → objs w' = objs0 →
      fdtab w' = fdtab w →
      clock w' = S (S (S (S (clock w)))) →
      create_effect name size w r w'.

(** Proof steps that recur: bring a record of events to normal form, and
    go through the members of an explicit list of events. *)
Ltac traces :=
  simpl; repeat (rewrite <- List.app_assoc; simpl); try done.

Ltac in_list H :=
  repeat (apply elem_of_cons in H as [H|H]; [try discriminate H|]);
  try (by apply elem_of_nil in H).

Global Arguments shm_open : simpl never.
Global Arguments fstat : simpl never.
Global Arguments ftruncate : simpl never.
Global Arguments close : simpl never.
Global Arguments shm_unlink : simpl never.
Global Arguments perror : simpl never.
Global Arguments fd_obj : simpl never.
Global Arguments lowest_free : simpl never.
Global Arguments to_long : simpl never.
Global Arguments get_shared_memory_size : simpl never.
Global Arguments create_shared_memory : simpl never.
Global Arguments unlink_shared_memory : simpl never.


(** * Facts about the model *)

Lemma lowest_free_None {A} (m : gmap nat A) : m !! lowest_free m = None.
Proof.
  unfold lowest_free.
  destruct (List.find _ _) as [n|] eqn:E; simpl.
  - apply find_some in E as [_ E]. by apply bool_decide_eq_true in E.
  - apply not_elem_of_dom.
    assert (Hsub : (set_seq 0 (size m) : gset nat) ⊆ dom m).
    { intros n Hn. apply elem_of_set_seq in Hn as [_ Hn].
      apply elem_of_dom. apply not_eq_None_Some. intros Hnone.
      pose proof (find_none _ _ E n) as Hf.
      rewrite bool_decide_eq_false in Hf. apply Hf; [|done].
      apply in_seq. lia. }
    apply set_subseteq_size_eq in Hsub.
    + rewrite <- Hsub. rewrite elem_of_set_seq. lia.
    + rewrite size_set_seq, size_dom. lia.
Qed.

Lemma fd_obj_of_nat n w : fd_obj (Z.of_nat n) w = fdtab w !! n.
Proof.
  unfold fd_obj. destruct (Z.ltb_spec (Z.of_nat n) 0); [lia|].
  by rewrite Nat2Z.id.
Qed.

Lemma fd_nonneg n : (Z.of_nat n <? 0) = false.
Proof. apply Z.ltb_ge. lia. Qed.

Lemma to_long_id z : LONG_MIN ≤ z ≤ LONG_MAX → to_long z = z.
Proof.
  unfold LONG_MIN, LONG_MAX, to_long. intros H.
  rewrite Z.mod_small by lia. lia.
Qed.

(** The size query, as one case split on what [fstat] answers. *)
Lemma get_shared_memory_size_cases fd w :
  (∃ o s, fault w = false ∧ fd_obj fd w = Some o ∧ objs w !! o = Some s ∧
     Z.of_N s ≤ LONG_MAX ∧
     get_shared_memory_size fd w =
       (Returned (Z.of_N s), called (EvFstat fd 0) w)) ∨
  get_shared_memory_size fd w =
    (Returned (-1), printed "fstat" (called (EvFstat fd (-1)) w)).
Proof.
  unfold get_shared_memory_size, bind, fstat.
  destruct (fault w) eqn:Hf; [right; simpl; auto|].
  destruct (fd_obj fd w) as [o|] eqn:Ho; simpl; [|right; auto].
  destruct (objs w !! o) as [s|] eqn:Hs; simpl; [|right; auto].
  destruct (Z.leb_spec (Z.of_N s) LONG_MAX) as [Hmax|Hmax]; simpl;
    [|right; auto].
  left. exists o, s. rewrite to_long_id; [auto 10|]. unfold LONG_MIN. lia.
Qed.

Lemma fd_obj_opened n o m w :
  fd_obj (Z.of_nat n) (set_fdtab (<[n := o]> m) w) = Some o.
Proof. rewrite fd_obj_of_nat. simpl. apply lookup_insert_eq. Qed.

(** [shm_open] with the flags [create_shared_memory] passes. *)
Lemma shm_open_cases name w :
  let n := lowest_free (fdtab w) in
  (fault w = true ∧
   shm_open name (Z.lor O_CREAT O_RDWR) 438 w =
     (Returned (-1), called (EvShmOpen name (-1)) w)) ∨
  (fault w = false ∧ ∃ o w0,
   shm_open name (Z.lor O_CREAT O_RDWR) 438 w =
     (Returned (Z.of_nat n),
      called (EvShmOpen name (Z.of_nat n)) (set_fdtab (<[n := o]> (fdtab w0)) w0)) ∧
   names w0 !! name = Some o ∧ fdtab w0 = fdtab w ∧ oracle w0 = oracle w ∧
   clock w0 = clock w ∧ trace w0 = trace w ∧
   ((names w !! name = Some o ∧ w0 = w) ∨
    (names w !! name = None ∧ o = lowest_free (objs w) ∧
     names w0 = <[name := o]> (names w) ∧ objs w0 = <[o := 0%N]> (objs w)))).
Proof.
  intros n. unfold shm_open.
  destruct (fault w) eqn:Hf; [left; auto|right; split; [done|]].
  destruct (names w !! name) as [o|] eqn:Hn.
  - exists o, w. repeat split; auto.
  - change (Z.land (Z.lor O_CREAT O_RDWR) O_CREAT =? 0) with false. cbv iota.
    exists (lowest_free (objs w)),
      (set_objs (<[lowest_free (objs w) := 0%N]> (objs w))
         (set_names (<[name := lowest_free (objs w)]> (names w)) w)).
    split; [reflexivity|]. simpl.
    rewrite lookup_insert_eq. repeat split; auto.
Qed.

Lemma close_opened n o w w2 :
  fdtab w !! n = None → fdtab w2 = <[n := o]> (fdtab w) →
  ∃ c, close (Z.of_nat n) w2 =
         (Returned c,
          called (EvClose (Z.of_nat n) c) (set_fdtab (fdtab w) w2)).
Proof.
  intros Hfree E. unfold close. rewrite fd_obj_of_nat, E, lookup_insert_eq.
  rewrite Nat2Z.id, delete_insert_id by done. eauto.
Qed.

Lemma ftruncate_cases fd size w :
  (∃ o, fault w = false ∧ fd_obj fd w = Some o ∧ 0 ≤ size ∧
     ftruncate fd size w =
       (Returned 0,
        called (EvFtruncate fd size 0)
          (set_objs (<[o := Z.to_N size]> (objs w)) w))) ∨
  ((fault w = true ∨ fd_obj fd w = None ∨ size < 0) ∧
     ftruncate fd size w =
       (Returned (-1), called (EvFtruncate fd size (-1)) w)).
Proof.
  unfold ftruncate.
  destruct (fault w); [right; auto|].
  destruct (fd_obj fd w) as [o|]; [|right; auto].
  destruct (Z.ltb_spec size 0); [right; auto|left; eauto].
Qed.

Lemma bind_returned {A B} (c : proc A) (k : A → proc B) w a w1 :
  c w = (Returned a, w1) → bind c k w = k a w1.
Proof. unfold bind. by intros ->. Qed.

Lemma create_shared_memory_cases name size w :
  let fd := Z.of_nat (lowest_free (fdtab w)) in
  ∃ r w', create_shared_memory name size w = (Returned r, w') ∧
    oracle w' = oracle w ∧
    ((r = -1 ∧ fault w = true ∧
      trace w' = trace w ++ [EvShmOpen name (-1); EvPerror "shm_open"] ∧
      names w' = names w ∧ objs w' = objs w ∧ fdtab w' = fdtab w) ∨
     (r = fd ∧ trace w' = trace w ++ [EvShmOpen name fd; EvFstat fd 0] ∧
      ∃ o, fd_obj fd w' = Some o ∧ names w' !! name = Some o) ∨
     (r = fd ∧ (∃ ok, trace w' =
        trace w ++ EvShmOpen name fd :: stat_events fd ok ++ [EvFtruncate fd size 0]) ∧
      ∃ o, fd_obj fd w' = Some o ∧ names w' !! name = Some o ∧
           objs w' !! o = Some (Z.to_N size) ∧ 0 ≤ size) ∨
     (r = -1 ∧ (∃ ok c, trace w' =
        trace w ++ EvShmOpen name fd :: stat_events fd ok ++
          [EvFtruncate fd size (-1); EvPerror "ftruncate"; EvClose fd c]) ∧
      fd_obj fd w' = None ∧ fdtab w' = fdtab w)).
Proof.
  intros fd. unfold create_shared_memory.
  destruct (shm_open_cases name w)
    as [[Hf E]|(Hf & o & w0 & E & Hn & Hfd & Hor & Hck & Htr & _)];
    rewrite (bind_returned _ _ _ _ _ E); clear E.
  { eexists _, _. split; [reflexivity|]. split; [done|]. left. traces. }
  fold fd. unfold fd at 1. rewrite fd_nonneg. rewrite Hfd.
  set (w1 := called _ _).
  assert (Hw1 : fd_obj fd w1 = Some o) by apply fd_obj_opened.
  assert (Hfree : fdtab w !! lowest_free (fdtab w) = None)
    by apply lowest_free_None.
  (* the resize, from a world [w2] in which the size query has been made *)
  assert (Htail : ∀ ok w2,
    fd_obj fd w2 = Some o → names w2 !! name = Some o →
    fdtab w2 = <[lowest_free (fdtab w) := o]> (fdtab w) →
    oracle w2 = oracle w →
    trace w2 = trace w ++ EvShmOpen name fd :: stat_events fd ok →
    ∃ r w',
      (let* r := ftruncate fd size in
       if r =? -1 then perror "ftruncate" ;; close fd ;; ret (-1) else ret fd) w2
      = (Returned r, w') ∧ oracle w' = oracle w ∧
      ((r = fd ∧ (∃ ok, trace w' =
          trace w ++ EvShmOpen name fd :: stat_events fd ok ++ [EvFtruncate fd size 0]) ∧
        ∃ o, fd_obj fd w' = Some o ∧ names w' !! name = Some o ∧
             objs w' !! o = Some (Z.to_N size) ∧ 0 ≤ size) ∨
       (r = -1 ∧ (∃ ok c, trace w' =
          trace w ++ EvShmOpen name fd :: stat_events fd ok ++
            [EvFtruncate fd size (-1); EvPerror "ftruncate"; EvClose fd c]) ∧
        fd_obj fd w' = None ∧ fdtab w' = fdtab w))).
  { intros ok w2 Ho2 Hn2 Hfd2 Hor2 Htr2.
    destruct (ftruncate_cases fd size w2) as [(o2 & _ & Ho2' & Hsz & E)|[_ E]];
      rewrite (bind_returned _ _ _ _ _ E); clear E.
    - eexists _, _. split; [reflexivity|]. simpl. split; [done|].
      left. split; [done|]. split.
      + exists ok. rewrite Htr2. traces.
      + exists o. rewrite Ho2 in Ho2'. injection Ho2' as <-.
        by rewrite lookup_insert_eq.
    - change (-1 =? -1) with true. cbv iota. unfold perror.
      erewrite bind_returned by reflexivity.
      destruct (close_opened (lowest_free (fdtab w)) o w
                  (printed "ftruncate" (called (EvFtruncate fd size (-1)) w2)))
        as [c Hc]; [done..|].
      fold fd in Hc. rewrite (bind_returned _ _ _ _ _ Hc).
      eexists _, _. split; [reflexivity|].
      simpl. split; [done|]. right.
      split; [done|]. split; [|split; [|done]].
      + exists ok, c. rewrite Htr2. traces.
      + unfold fd. by rewrite fd_obj_of_nat. }
  destruct (get_shared_memory_size_cases fd w1)
    as [(o' & s & Hf1 & Ho' & Hs & _ & E)|E];
    rewrite (bind_returned _ _ _ _ _ E); clear E.
  - destruct (Z.of_N s >? 0) eqn:Hpos.
    { eexists _, _. split; [reflexivity|]. simpl. split; [done|].
      right; left. rewrite Htr. split; [done|]. split; [traces|]. eauto. }
    destruct (Htail true (called (EvFstat fd 0) w1))
      as (r & w' & E & ? & ?); try done.
    { simpl. rewrite Htr. traces. }
    exists r, w'. auto.
  - destruct (Htail false (printed "fstat" (called (EvFstat fd (-1)) w1)))
      as (r & w' & E & ? & ?); try done.
    { simpl. rewrite Htr. traces. }
    exists r, w'. auto.
Qed.

(** ** The two paths that succeed, from the state of the system *)

Lemma quiet_at n w k : quiet n w → (k < n)%nat → oracle w (k + clock w)%nat = false.
Proof. intros H. apply H. Qed.

Lemma get_shared_memory_size_ok fd w o s :
  fault w = false → fd_obj fd w = Some o → objs w !! o = Some s →
  Z.of_N s ≤ LONG_MAX →
  get_shared_memory_size fd w = (Returned (Z.of_N s), called (EvFstat fd 0) w).
Proof.
  intros Hf Ho Hs Hmax. unfold get_shared_memory_size, fstat, bind.
  rewrite Hf, Ho. simpl. rewrite Hs.
  destruct (Z.leb_spec (Z.of_N s) LONG_MAX); [|lia]. simpl.
  rewrite to_long_id; [done|]. unfold LONG_MIN. lia.
Qed.

Lemma shm_open_attach name w o :
  fault w = false → names w !! name = Some o →
  let n := lowest_free (fdtab w) in
  shm_open name (Z.lor O_CREAT O_RDWR) 438 w =
    (Returned (Z.of_nat n),
     called (EvShmOpen name (Z.of_nat n)) (set_fdtab (<[n := o]> (fdtab w)) w)).
Proof. intros Hf Hn n. unfold shm_open. by rewrite Hf, Hn. Qed.

Lemma shm_open_create name w :
  fault w = false → names w !! name = None →
  let n := lowest_free (fdtab w) in
  let o := lowest_free (objs w) in
  shm_open name (Z.lor O_CREAT O_RDWR) 438 w =
    (Returned (Z.of_nat n),
     called (EvShmOpen name (Z.of_nat n))
       (set_fdtab (<[n := o]> (fdtab w))
          (set_objs (<[o := 0%N]> (objs w))
             (set_names (<[name := o]> (names w)) w)))).
Proof. intros Hf Hn n o. unfold shm_open. by rewrite Hf, Hn. Qed.

Lemma create_attach name size w o s :
  fault w = false → oracle w (S (clock w)) = false →
  names w !! name = Some o → objs w !! o = Some s →
  0 < Z.of_N s ≤ LONG_MAX →
  let n := lowest_free (fdtab w) in
  create_shared_memory name size w =
    (Returned (Z.of_nat n),
     called (EvFstat (Z.of_nat n) 0)
       (called (EvShmOpen name (Z.of_nat n))
          (set_fdtab (<[n := o]> (fdtab w)) w))).
Proof.
  intros Hf0 Hf1 Hn Hs Hrange n. unfold create_shared_memory.
  rewrite (bind_returned _ _ _ _ _ (shm_open_attach name w o Hf0 Hn)).
  fold n. rewrite fd_nonneg.
  erewrite bind_returned; last first.
  { apply (get_shared_memory_size_ok _ _ o s); try done;
      [apply fd_obj_opened|lia]. }
  destruct (Z.gtb_spec (Z.of_N s) 0); [done|lia].
Qed.

Lemma create_fresh name size w :
  quiet 3 w → names w !! name = None → 0 ≤ size →
  let n := lowest_free (fdtab w) in
  let o := lowest_free (objs w) in
  create_shared_memory name size w =
    (Returned (Z.of_nat n),
     called (EvFtruncate (Z.of_nat n) size 0)
       (set_objs (<[o := Z.to_N size]> (<[o := 0%N]> (objs w)))
          (called (EvFstat (Z.of_nat n) 0)
             (called (EvShmOpen name (Z.of_nat n))
                (set_fdtab (<[n := o]> (fdtab w))
                   (set_objs (<[o := 0%N]> (objs w))
                      (set_names (<[name := o]> (names w)) w))))))).
Proof.
  intros Hq Hn Hsz n o. unfold create_shared_memory.
  pose proof (quiet_at 3 w 0 Hq ltac:(lia)) as Hf0.
  pose proof (quiet_at 3 w 1 Hq ltac:(lia)) as Hf1.
  pose proof (quiet_at 3 w 2 Hq ltac:(lia)) as Hf2. simpl in Hf0, Hf1, Hf2.
  rewrite (bind_returned _ _ _ _ _ (shm_open_create name w Hf0 Hn)).
  fold n o. rewrite fd_nonneg.
  erewrite bind_returned; last first.
  { apply (get_shared_memory_size_ok _ _ o 0%N); try done.
    - apply fd_obj_opened.
    - simpl. apply lookup_insert_eq. }
  change (Z.of_N 0 >? 0) with false. cbv iota.
  unfold ftruncate at 1. unfold bind, fault. simpl.
  rewrite Hf2, fd_obj_of_nat. simpl. rewrite lookup_insert_eq.
  destruct (Z.ltb_spec size 0); [lia|]. done.
Qed.

(** ** Runs of system calls that the oracle lets through *)

Lemma quiet_mono n m w : (m ≤ n)%nat → quiet n w → quiet m w.
Proof. intros Hle H k Hk. apply H. lia. Qed.

Lemma quiet_fault n w : quiet (S n) w → fault w = false.
Proof. intros H. apply (H 0%nat). lia. Qed.

Lemma quiet_step n w w1 :
  quiet (S n) w → oracle w1 = oracle w → clock w1 = S (clock w) → quiet n w1.
Proof.
  intros H Hor Hck k Hk. rewrite Hor, Hck, Nat.add_succ_r.
  apply (H (S k)). lia.
Qed.

Lemma of_to_N size : 0 ≤ size → Z.of_N (Z.to_N size) = size.
Proof. apply Z2N.id. Qed.

(** What one call adds to the record is determined by the record itself. *)
Lemma events_unique (w w' : World) evs evs' :
  trace w' = trace w ++ evs → trace w' = trace w ++ evs' → evs = evs'.
Proof. intros -> H. by apply app_inv_head in H. Qed.

(** * The properties of the specification *)

(** C1.  First writer wins.  When the name already has an object whose
    size is positive and the open and the size query go through,
    [create_shared_memory] returns the descriptor it opened after the calls
    [shm_open] and [fstat] alone: no resize is made, whatever [size] is, and
    the names and the sizes of all objects are as before; the size queried
    through the descriptor is the old one.  In particular, after a first
    call has created the object with a positive size, a second call on the
    same name with any other size returns a descriptor whose queried size
    is the size of the first call. *)
Theorem first_writer_wins :
  (∀ name size w o s,
     names w !! name = Some o → objs w !! o = Some s →
     0 < Z.of_N s ≤ LONG_MAX → quiet 3 w →
     ∃ fd w' w'',
       create_shared_memory name size w = (Returned fd, w') ∧
       0 ≤ fd ∧ fd_obj fd w' = Some o ∧
       names w' = names w ∧ objs w' = objs w ∧
       trace w' = trace w ++ [EvShmOpen name fd; EvFstat fd 0] ∧
       get_shared_memory_size fd w' = (Returned (Z.of_N s), w'')) ∧
  (∀ name size1 size2 w,
     names w !! name = None → 0 < size1 ≤ LONG_MAX → quiet 6 w →
     ∃ fd1 w1 fd2 w2 w3,
       create_shared_memory name size1 w = (Returned fd1, w1) ∧
       create_shared_memory name size2 w1 = (Returned fd2, w2) ∧
       0 ≤ fd2 ∧
       get_shared_memory_size fd2 w2 = (Returned size1, w3)).
Proof.
  assert (A : ∀ name size w o s,
     names w !! name = Some o → objs w !! o = Some s →
     0 < Z.of_N s ≤ LONG_MAX → quiet 3 w →
     ∃ fd w' w'',
       create_shared_memory name size w = (Returned fd, w') ∧
       0 ≤ fd ∧ fd_obj fd w' = Some o ∧
       names w' = names w ∧ objs w' = objs w ∧
       trace w' = trace w ++ [EvShmOpen name fd; EvFstat fd 0] ∧
       get_shared_memory_size fd w' = (Returned (Z.of_N s), w'')).
  { intros name size w o s Hn Hs Hrange Hq.
    pose proof (quiet_at 3 w 0 Hq ltac:(lia)) as Hf0.
    pose proof (quiet_at 3 w 1 Hq ltac:(lia)) as Hf1.
    pose proof (quiet_at 3 w 2 Hq ltac:(lia)) as Hf2. simpl in Hf0, Hf1, Hf2.
    eexists _, _, _. split; [by apply (create_attach name size w o s)|].
    split; [lia|]. split; [apply fd_obj_opened|].
    split; [done|]. split; [done|]. split; [traces|].
    apply (get_shared_memory_size_ok _ _ o s); try done;
      [apply fd_obj_opened|lia]. }
  split; [exact A|].
  intros name size1 size2 w Hn Hrange Hq.
  assert (Hq3 : quiet 3 w) by (eapply quiet_mono; [|done]; lia).
  rewrite (create_fresh name size1 w Hq3 Hn ltac:(lia)).
  set (w1 := called _ _).
  destruct (A name size2 w1 (lowest_free (objs w)) (Z.to_N size1))
    as (fd2 & w2 & w3 & E2 & Hfd2 & _ & _ & _ & _ & E3).
  - simpl. apply lookup_insert_eq.
  - simpl. apply lookup_insert_eq.
  - rewrite of_to_N; lia.
  - intros k Hk. simpl.
    replace (k + S (S (S (clock w))))%nat with ((k + 3) + clock w)%nat by lia.
    apply Hq. lia.
  - rewrite of_to_N in E3 by lia. eauto 10.
Qed.

Lemma first_writer_wins_witness :
  (∃ fd w' w'',
     create_shared_memory "/testshm" 8192 (boot_with "/testshm" 4096 no_faults)
       = (Returned fd, w') ∧
     0 ≤ fd ∧ fd_obj fd w' = Some 1%nat ∧
     names w' = names (boot_with "/testshm" 4096 no_faults) ∧
     objs w' = objs (boot_with "/testshm" 4096 no_faults) ∧
     trace w' = [EvShmOpen "/testshm" fd; EvFstat fd 0] ∧
     get_shared_memory_size fd w' = (Returned 4096, w'')) ∧
  (∃ fd1 w1 fd2 w2 w3,
     create_shared_memory "/testshm" 4096 (boot no_faults) = (Returned fd1, w1) ∧
     create_shared_memory "/testshm" 8192 w1 = (Returned fd2, w2) ∧
     0 ≤ fd2 ∧
     get_shared_memory_size fd2 w2 = (Returned 4096, w3)).
Proof.
  split.
  - apply (proj1 first_writer_wins "/testshm" 8192
             (boot_with "/testshm" 4096 no_faults) 1%nat 4096%N);
      [reflexivity | reflexivity | unfold LONG_MAX; lia | intros k _; reflexivity].
  - apply (proj2 first_writer_wins "/testshm" 4096 8192 (boot no_faults));
      [reflexivity | unfold LONG_MAX; lia | intros k _; reflexivity].
Defined.

(** C2 as it is stated does not hold: with an object of 4096 bytes behind
    the name and an [fstat] that fails, the call made with size 8192 goes on
    to [ftruncate], which succeeds, and returns descriptor 3. *)
Lemma stat_failure_then_resize_example :
  ¬ (∀ name size w r w' evs,
       create_shared_memory name size w = (Returned r, w') →
       trace w' = trace w ++ evs →
       (∃ fd, EvFstat fd (-1) ∈ evs) →
       r = -1 ∧ ∀ fd len x, EvFtruncate fd len x ∉ evs).
Proof.
  intros H.
  destruct (H "/testshm" 8192 (boot_with "/testshm" 4096 (fail_at 1)) 3
              (create_shared_memory "/testshm" 8192
                 (boot_with "/testshm" 4096 (fail_at 1))).2
              [EvShmOpen "/testshm" 3; EvFstat 3 (-1); EvPerror "fstat";
               EvFtruncate 3 8192 0]) as [Hr _].
  - reflexivity.
  - reflexivity.
  - exists 3. apply list_elem_of_further, list_elem_of_here.
  - discriminate Hr.
Qed.

(** C2, amended.  When the size query made after the open fails,
    [get_shared_memory_size] prints its diagnostic and
    [create_shared_memory] does not stop there: it goes on to the resize
    with the requested size.  It returns the descriptor when the resize
    succeeds; when the resize fails it prints the diagnostic, closes the
    descriptor and returns -1. *)
Theorem stat_failure_goes_on_to_resize name size w r w' evs :
  create_shared_memory name size w = (Returned r, w') →
  trace w' = trace w ++ evs →
  (∃ fd, EvFstat fd (-1) ∈ evs) →
  let fd := Z.of_nat (lowest_free (fdtab w)) in
  (r = fd ∧
   evs = [EvShmOpen name fd; EvFstat fd (-1); EvPerror "fstat";
          EvFtruncate fd size 0]) ∨
  (r = -1 ∧ fdtab w' = fdtab w ∧
   ∃ c, evs = [EvShmOpen name fd; EvFstat fd (-1); EvPerror "fstat";
               EvFtruncate fd size (-1); EvPerror "ftruncate"; EvClose fd c]).
Proof.
  intros Hrun Htr [fd' Hin] fd.
  destruct (create_shared_memory_cases name size w)
    as (r0 & w0 & E & _ & Hcase).
  rewrite E in Hrun. injection Hrun as -> ->. fold fd in Hcase.
  destruct Hcase as [(_ & _ & Ht & _)|[(_ & Ht & _)|
    [(-> & [ok Ht] & _)|(-> & (ok & c & Ht) & _ & Hfd)]]];
    pose proof (events_unique _ _ _ _ Htr Ht) as ->; clear Ht Htr.
  - in_list Hin.
  - in_list Hin.
  - destruct ok; simpl in *; [in_list Hin|]. by left.
  - destruct ok; simpl in *; [in_list Hin|]. right. eauto.
Qed.

Lemma stat_failure_goes_on_to_resize_witness :
  let w := boot_with "/testshm" 4096 (fail_at 1) in
  let w' := (create_shared_memory "/testshm" 8192 w).2 in
  (3 = 3 ∧
   trace w' = [EvShmOpen "/testshm" 3; EvFstat 3 (-1); EvPerror "fstat";
               EvFtruncate 3 8192 0]) ∨
  (3 = -1 ∧ fdtab w' = fdtab w ∧
   ∃ c, trace w' = [EvShmOpen "/testshm" 3; EvFstat 3 (-1); EvPerror "fstat";
                    EvFtruncate 3 8192 (-1); EvPerror "ftruncate"; EvClose 3 c]).
Proof.
  intros w w'.
  apply (stat_failure_goes_on_to_resize "/testshm" 8192 w 3 w' (trace w'));
    [reflexivity | reflexivity |].
  exists 3. vm_compute. apply list_elem_of_further, list_elem_of_here.
Defined.

(** C3.  First creation.  For every name that names no object yet and every
    positive size a [long] can hold, when the four system calls go through,
    [create_shared_memory] returns a descriptor and the size queried through
    it is exactly the requested size. *)
Theorem create_then_query_size name size w :
  names w !! name = None → 0 < size ≤ LONG_MAX → quiet 4 w →
  ∃ fd w1 w2,
    create_shared_memory name size w = (Returned fd, w1) ∧ 0 ≤ fd ∧
    get_shared_memory_size fd w1 = (Returned size, w2).
Proof.
  intros Hn Hrange Hq.
  assert (Hq3 : quiet 3 w) by (eapply quiet_mono; [|done]; lia).
  pose proof (quiet_at 4 w 3 Hq ltac:(lia)) as Hf3. simpl in Hf3.
  rewrite (create_fresh name size w Hq3 Hn ltac:(lia)).
  set (w1 := called _ _).
  pose proof (get_shared_memory_size_ok (Z.of_nat (lowest_free (fdtab w))) w1
                (lowest_free (objs w)) (Z.to_N size)) as E.
  rewrite of_to_N in E by lia.
  eexists _, _, _. split; [reflexivity|]. split; [lia|].
  apply E; [done|apply fd_obj_opened| |lia].
  simpl. apply lookup_insert_eq.
Qed.

Lemma create_then_query_size_witness :
  ∃ fd w1 w2,
    create_shared_memory "/testshm" 4096 (boot no_faults) = (Returned fd, w1) ∧
    0 ≤ fd ∧ get_shared_memory_size fd w1 = (Returned 4096, w2).
Proof.
  apply (create_then_query_size "/testshm" 4096 (boot no_faults));
    [reflexivity | unfold LONG_MAX; lia | intros k _; reflexivity].
Defined.

(** C4.  When the resize fails, the descriptor opened by the same call is
    closed before the call returns, and the call returns -1: the record ends
    with the failed [ftruncate], its diagnostic and the [close] of that
    descriptor, the descriptor is not open afterwards, and the descriptor
    table is what it was before the call. *)
Theorem resize_failure_closes_descriptor name size w r w' evs :
  create_shared_memory name size w = (Returned r, w') →
  trace w' = trace w ++ evs →
  (∃ fd, EvFtruncate fd size (-1) ∈ evs) →
  let fd := Z.of_nat (lowest_free (fdtab w)) in
  r = -1 ∧ fdtab w' = fdtab w ∧ fd_obj fd w' = None ∧
  ∃ ok c, evs = EvShmOpen name fd :: stat_events fd ok ++
                  [EvFtruncate fd size (-1); EvPerror "ftruncate"; EvClose fd c].
Proof.
  intros Hrun Htr [fd' Hin] fd.
  destruct (create_shared_memory_cases name size w)
    as (r0 & w0 & E & _ & Hcase).
  rewrite E in Hrun. injection Hrun as -> ->. fold fd in Hcase.
  destruct Hcase as [(_ & _ & Ht & _)|[(_ & Ht & _)|
    [(-> & [ok Ht] & _)|(-> & (ok & c & Ht) & Hclosed & Hfd)]]];
    pose proof (events_unique _ _ _ _ Htr Ht) as ->; clear Ht Htr.
  - in_list Hin.
  - in_list Hin.
  - destruct ok; simpl in *; in_list Hin.
  - eauto 10.
Qed.

Lemma resize_failure_closes_descriptor_witness :
  let w := boot (fail_at 2) in
  let w' := (create_shared_memory "/testshm" 4096 w).2 in
  -1 = -1 ∧ fdtab w' = fdtab w ∧ fd_obj 3 w' = None ∧
  ∃ ok c, trace w' = EvShmOpen "/testshm" 3 :: stat_events 3 ok ++
                  [EvFtruncate 3 4096 (-1); EvPerror "ftruncate"; EvClose 3 c].
Proof.
  intros w w'.
  apply (resize_failure_closes_descriptor "/testshm" 4096 w (-1) w' (trace w'));
    [reflexivity | reflexivity |].
  exists 3. vm_compute. do 2 apply list_elem_of_further. apply list_elem_of_here.
Defined.

(** C5 as it is stated (every size) does not hold: after the unlink, a call
    with size -5 creates the object, has its [ftruncate] refused and returns
    -1, and the size queried through that is -1, not -5. *)
Lemma negative_size_after_unlink_example :
  ¬ (∀ name size w, ∃ w1 fd w2 w3,
       unlink_shared_memory name w = (Returned tt, w1) ∧
       create_shared_memory name size w1 = (Returned fd, w2) ∧
       get_shared_memory_size fd w2 = (Returned size, w3)).
Proof.
  intros H.
  destruct (H "/testshm" (-5) (boot_with "/testshm" 4096 no_faults))
    as (w1 & fd & w2 & w3 & E1 & E2 & E3).
  assert (w1 = (unlink_shared_memory "/testshm"
                  (boot_with "/testshm" 4096 no_faults)).2) as ->
    by (by rewrite E1).
  assert (fd = -1 ∧ w2 = (create_shared_memory "/testshm" (-5)
            (unlink_shared_memory "/testshm"
               (boot_with "/testshm" 4096 no_faults)).2).2) as [-> ->].
  { rewrite E2. split; [|done]. clear E3.
    assert (Returned fd = (create_shared_memory "/testshm" (-5)
              (unlink_shared_memory "/testshm"
                (boot_with "/testshm" 4096 no_faults)).2).1) as Hfd
      by (by rewrite E2).
    vm_compute in Hfd. by injection Hfd. }
  assert (Returned (-5) = (get_shared_memory_size (-1)
            (create_shared_memory "/testshm" (-5)
              (unlink_shared_memory "/testshm"
                 (boot_with "/testshm" 4096 no_faults)).2).2).1) as Hsz
    by (by rewrite E3).
  vm_compute in Hsz. discriminate Hsz.
Qed.

(** C5, amended.  For every name and every size from 0 up to the largest
    [long], when the system calls go through: after [unlink_shared_memory]
    the name is free, and [create_shared_memory] on it acts as a first
    creation; the size queried through the descriptor is the requested
    size, the name resolves to a new object, and the object the name had
    before keeps its size. *)
Theorem unlink_then_create name size w :
  quiet 5 w → 0 ≤ size ≤ LONG_MAX →
  ∃ w1 fd w2 w3,
    unlink_shared_memory name w = (Returned tt, w1) ∧
    names w1 !! name = None ∧
    create_shared_memory name size w1 = (Returned fd, w2) ∧ 0 ≤ fd ∧
    get_shared_memory_size fd w2 = (Returned size, w3) ∧
    ∀ o s, names w !! name = Some o → objs w !! o = Some s →
           names w2 !! name ≠ Some o ∧ objs w2 !! o = Some s.
Proof.
  intros Hq Hrange.
  assert (∃ w1, unlink_shared_memory name w = (Returned tt, w1) ∧
                names w1 !! name = None ∧ objs w1 = objs w ∧
                oracle w1 = oracle w ∧ clock w1 = S (clock w))
    as (w1 & E1 & Hn1 & Hobjs & Hor & Hck).
  { unfold unlink_shared_memory, shm_unlink, bind.
    rewrite (quiet_fault _ _ Hq).
    destruct (names w !! name) eqn:Hn; simpl.
    - eexists. split; [reflexivity|]. simpl. by rewrite lookup_delete_eq.
    - eexists. split; [reflexivity|]. done. }
  pose proof (quiet_step _ _ _ Hq Hor Hck) as Hq1.
  assert (Hq3 : quiet 3 w1) by (eapply quiet_mono; [|done]; lia).
  pose proof (quiet_at 4 w1 3 Hq1 ltac:(lia)) as Hf3. simpl in Hf3.
  exists w1. rewrite (create_fresh name size w1 Hq3 Hn1 ltac:(lia)).
  set (w2 := called _ _).
  pose proof (get_shared_memory_size_ok (Z.of_nat (lowest_free (fdtab w1))) w2
                (lowest_free (objs w1)) (Z.to_N size)) as E.
  rewrite of_to_N in E by lia.
  eexists _, _, _. split; [done|]. split; [done|]. split; [reflexivity|].
  split; [lia|]. split.
  { apply E; [done|apply fd_obj_opened| |lia]. simpl. apply lookup_insert_eq. }
  intros o s Ho Hs. simpl.
  assert (lowest_free (objs w1) ≠ o) as Hne.
  { intros <-. rewrite Hobjs, lowest_free_None in Hs. discriminate. }
  rewrite lookup_insert_eq, !lookup_insert_ne, Hobjs by done.
  split; [congruence|done].
Qed.

Lemma unlink_then_create_witness :
  ∃ w1 fd w2 w3,
    unlink_shared_memory "/testshm" (boot_with "/testshm" 4096 no_faults)
      = (Returned tt, w1) ∧
    names w1 !! "/testshm" = None ∧
    create_shared_memory "/testshm" 2048 w1 = (Returned fd, w2) ∧ 0 ≤ fd ∧
    get_shared_memory_size fd w2 = (Returned 2048, w3) ∧
    ∀ o s, names (boot_with "/testshm" 4096 no_faults) !! "/testshm" = Some o →
           objs (boot_with "/testshm" 4096 no_faults) !! o = Some s →
           names w2 !! "/testshm" ≠ Some o ∧ objs w2 !! o = Some s.
Proof.
  apply (unlink_then_create "/testshm" 2048
           (boot_with "/testshm" 4096 no_faults));
    [intros k _; reflexivity | unfold LONG_MAX; lia].
Defined.

(** C6.  When [shm_open] fails, [create_shared_memory] returns -1 at once:
    the call adds to the record the failed open and its diagnostic and
    nothing else (no [fstat], no [ftruncate]), and names, objects and
    descriptors are unchanged. *)
Theorem open_failure_returns_sentinel name size w fd w1 :
  shm_open name (Z.lor O_CREAT O_RDWR) 438 w = (Returned fd, w1) → fd < 0 →
  ∃ w', create_shared_memory name size w = (Returned (-1), w') ∧
    trace w' = trace w ++ [EvShmOpen name (-1); EvPerror "shm_open"] ∧
    names w' = names w ∧ objs w' = objs w ∧ fdtab w' = fdtab w.
Proof.
  intros Hopen Hneg.
  destruct (shm_open_cases name w) as [[_ E]|(_ & o & w0 & E & _)];
    rewrite E in Hopen; injection Hopen as <- <-; [|lia].
  unfold create_shared_memory. rewrite (bind_returned _ _ _ _ _ E).
  eexists. split; [reflexivity|]. traces.
Qed.

Lemma open_failure_returns_sentinel_witness :
  ∃ w', create_shared_memory "/testshm" 4096 (boot (fail_at 0))
          = (Returned (-1), w') ∧
    trace w' = [EvShmOpen "/testshm" (-1); EvPerror "shm_open"] ∧
    names w' = ∅ ∧ objs w' = objs (boot (fail_at 0)) ∧
    fdtab w' = fdtab (boot (fail_at 0)).
Proof.
  apply (open_failure_returns_sentinel "/testshm" 4096 (boot (fail_at 0)) (-1)
           (called (EvShmOpen "/testshm" (-1)) (boot (fail_at 0))));
    [reflexivity | lia].
Defined.

(** C7.  A failing [shm_unlink] is reported and is not fatal.  Unlinking a
    name that does not exist fails; and whenever [shm_unlink] fails,
    [unlink_shared_memory] returns to its caller (the process does not
    exit), having added to the record the failed call and its diagnostic,
    with names, objects and descriptors unchanged. *)
Theorem unlink_failure_is_not_fatal name w :
  (names w !! name = None → (shm_unlink name w).1 = Returned (-1)) ∧
  ((shm_unlink name w).1 = Returned (-1) →
   ∃ w', unlink_shared_memory name w = (Returned tt, w') ∧
     names w' = names w ∧ objs w' = objs w ∧ fdtab w' = fdtab w ∧
     trace w' = trace w ++ [EvShmUnlink name (-1); EvPerror "shm_unlink"]).
Proof.
  unfold unlink_shared_memory, shm_unlink, bind. split.
  - intros ->. by destruct (fault w).
  - destruct (fault w); [|destruct (names w !! name)]; simpl; try discriminate;
      intros _; (eexists; split; [reflexivity|]; traces).
Qed.

Lemma unlink_failure_is_not_fatal_witness :
  (shm_unlink "/never" (boot no_faults)).1 = Returned (-1) ∧
  ∃ w', unlink_shared_memory "/never" (boot no_faults) = (Returned tt, w') ∧
     names w' = ∅ ∧ objs w' = objs (boot no_faults) ∧
     fdtab w' = fdtab (boot no_faults) ∧
     trace w' = [EvShmUnlink "/never" (-1); EvPerror "shm_unlink"].
Proof.
  split.
  - apply (proj1 (unlink_failure_is_not_fatal "/never" (boot no_faults))).
    reflexivity.
  - apply (proj2 (unlink_failure_is_not_fatal "/never" (boot no_faults))).
    reflexivity.
Defined.

(** C8.  The size query, for every descriptor and every state.  Against what
    [fstat] answers: when it does not answer -1 it has answered 0 with a
    size that is not negative, and [get_shared_memory_size] returns that
    size, having printed nothing; when it answers -1,
    [get_shared_memory_size] prints the diagnostic and returns -1.  Against
    the state: when the call is not failed from outside and the descriptor
    is open on an object whose size [off_t] can hold, the result is the size
    of that object; when the call is failed from outside or the descriptor
    is not open, the result is -1.  In every case names, objects and
    descriptors are what they were. *)
Theorem query_size_result fd w :
  (∀ ret st w1, fstat fd w = (Returned (ret, st), w1) →
     (ret ≠ -1 →
        ret = 0 ∧ 0 ≤ st_size st ∧
        get_shared_memory_size fd w = (Returned (st_size st), w1) ∧
        trace w1 = trace w ++ [EvFstat fd 0]) ∧
     (ret = -1 →
        get_shared_memory_size fd w = (Returned (-1), printed "fstat" w1) ∧
        trace (printed "fstat" w1) =
          trace w ++ [EvFstat fd (-1); EvPerror "fstat"])) ∧
  (∀ o s, fault w = false → fd_obj fd w = Some o → objs w !! o = Some s →
     Z.of_N s ≤ LONG_MAX →
     get_shared_memory_size fd w =
       (Returned (Z.of_N s), called (EvFstat fd 0) w)) ∧
  (fault w = true ∨ fd_obj fd w = None →
     get_shared_memory_size fd w =
       (Returned (-1), printed "fstat" (called (EvFstat fd (-1)) w))) ∧
  (names (get_shared_memory_size fd w).2 = names w ∧
   objs (get_shared_memory_size fd w).2 = objs w ∧
   fdtab (get_shared_memory_size fd w).2 = fdtab w).
Proof.
  split; [|split; [|split]].
  - intros ret st w1 Hstat.
    unfold get_shared_memory_size. rewrite (bind_returned _ _ _ _ _ Hstat).
    revert Hstat. unfold fstat.
    destruct (fault w); [|destruct (fd_obj fd w ≫= (objs w !!.)) as [sz|];
      [destruct (Z.leb_spec (Z.of_N sz) LONG_MAX) as [Hmax|Hmax]|]];
      intros [= <- <- <-]; (split; [intros Hret|intros Hret]);
      try done; try (split; [reflexivity|by traces]).
    split; [done|]. cbn [st_size]. split; [lia|]. split; [|traces].
    change (0 =? -1) with false. cbv iota. unfold ret.
    rewrite to_long_id; [done|]. unfold LONG_MIN. lia.
  - intros o s. apply get_shared_memory_size_ok.
  - intros Hbad. unfold get_shared_memory_size, fstat, bind.
    destruct Hbad as [-> | ->]; [done|]. by destruct (fault w).
  - destruct (get_shared_memory_size_cases fd w)
      as [(o & s & _ & _ & _ & _ & E)|E]; by rewrite E.
Qed.

Lemma query_size_result_witness :
  let w := (create_shared_memory "/testshm" 4096 (boot no_faults)).2 in
  get_shared_memory_size 3 w = (Returned 4096, called (EvFstat 3 0) w) ∧
  get_shared_memory_size 7 w =
    (Returned (-1), printed "fstat" (called (EvFstat 7 (-1)) w)) ∧
  (0 ≠ -1 →
     0 = 0 ∧ 0 ≤ 4096 ∧
     get_shared_memory_size 3 w = (Returned 4096, called (EvFstat 3 0) w) ∧
     trace (called (EvFstat 3 0) w) = trace w ++ [EvFstat 3 0]).
Proof.
  intros w. split; [|split].
  - apply (proj1 (proj2 (query_size_result 3 w)) 1%nat 4096%N);
      [reflexivity | reflexivity | reflexivity | unfold LONG_MAX; lia].
  - apply (proj1 (proj2 (proj2 (query_size_result 7 w)))).
    right. reflexivity.
  - apply (proj1 (query_size_result 3 w) 0 (mkStat 4096)
             (called (EvFstat 3 0) w)).
    reflexivity.
Defined.



(** C10.  [create_shared_memory] has one failure value.  It returns -1 or a
    non-negative descriptor; it returns -1 exactly when the open or the
    resize failed, and a non-negative value exactly when neither did, in
    which case the value is a descriptor open on the object of the name.
    Any two calls that fail, whichever way each of them fails (the open,
    the resize, the resize after a failed size query), return the same
    value. *)
Theorem failure_sentinel :
  (∀ name size w r w' evs,
     create_shared_memory name size w = (Returned r, w') →
     trace w' = trace w ++ evs →
     (r = -1 ∨ 0 ≤ r) ∧
     (r = -1 ↔ create_failed name size evs) ∧
     (0 ≤ r ↔ ¬ create_failed name size evs) ∧
     (0 ≤ r → ∃ o, fd_obj r w' = Some o ∧ names w' !! name = Some o)) ∧
  (∀ name1 size1 w1 r1 w1' evs1 name2 size2 w2 r2 w2' evs2,
     create_shared_memory name1 size1 w1 = (Returned r1, w1') →
     trace w1' = trace w1 ++ evs1 →
     create_shared_memory name2 size2 w2 = (Returned r2, w2') →
     trace w2' = trace w2 ++ evs2 →
     create_failed name1 size1 evs1 → create_failed name2 size2 evs2 →
     r1 = r2).
Proof.
  assert (A : ∀ name size w r w' evs,
     create_shared_memory name size w = (Returned r, w') →
     trace w' = trace w ++ evs →
     (r = -1 ∨ 0 ≤ r) ∧
     (r = -1 ↔ create_failed name size evs) ∧
     (0 ≤ r → ∃ o, fd_obj r w' = Some o ∧ names w' !! name = Some o)).
  { intros name size w r w' evs Hrun Htr.
    destruct (create_shared_memory_cases name size w)
      as (r0 & w0 & E & _ & Hcase).
    rewrite E in Hrun. injection Hrun as -> ->.
    set (fd := Z.of_nat (lowest_free (fdtab w))) in *.
    assert (0 ≤ fd) as Hfd by (unfold fd; lia).
    unfold create_failed.
    destruct Hcase as [(-> & _ & Ht & _)|[(-> & Ht & Ho)|
      [(-> & [ok Ht] & (o & Ho & Hn & _))|(-> & (ok & c & Ht) & _)]]];
      pose proof (events_unique _ _ _ _ Htr Ht) as ->; clear Ht Htr.
    - split; [by left|]. split; [|lia].
      split; [intros _; left; apply list_elem_of_here|done].
    - split; [by right|]. split; [|done].
      split; [lia|]. intros [Hin|[fd' Hin]]; in_list Hin.
      injection Hin as Hin. lia.
    - split; [by right|]. split; [|eauto].
      split; [lia|]. intros [Hin|[fd' Hin]]; destruct ok; simpl in *;
        in_list Hin; injection Hin as Hin; lia.
    - split; [by left|]. split; [|lia]. split; [intros _|done].
      right. exists fd. apply list_elem_of_further.
      apply elem_of_app. right. apply list_elem_of_here. }
  split.
  - intros name size w r w' evs Hrun Htr.
    destruct (A _ _ _ _ _ _ Hrun Htr) as (Hr & Hiff & Hfd).
    split; [done|]. split; [done|]. split; [|done].
    rewrite <- Hiff. lia.
  - intros name1 size1 w1 r1 w1' evs1 name2 size2 w2 r2 w2' evs2
      H1 T1 H2 T2 F1 F2.
    apply (A _ _ _ _ _ _ H1 T1) in F1. apply (A _ _ _ _ _ _ H2 T2) in F2.
    congruence.
Qed.

Lemma failure_sentinel_witness :
  let w := boot (λ n, Nat.eqb n 1 || Nat.eqb n 2) in
  let w' := (create_shared_memory "/testshm" 4096 w).2 in
  ((-1 = -1 ∨ 0 ≤ -1) ∧
   (-1 = -1 ↔ create_failed "/testshm" 4096 (trace w')) ∧
   (0 ≤ -1 ↔ ¬ create_failed "/testshm" 4096 (trace w')) ∧
   (0 ≤ -1 → ∃ o, fd_obj (-1) w' = Some o ∧ names w' !! "/testshm" = Some o)) ∧
  (create_failed "/testshm" 4096 (trace w') →
   create_failed "/testshm" 4096 [EvShmOpen "/testshm" (-1); EvPerror "shm_open"] →
   -1 = -1).
Proof.
  intros w w'. split.
  - apply (proj1 failure_sentinel "/testshm" 4096 w (-1) w' (trace w'));
      reflexivity.
  - apply (proj2 failure_sentinel
             "/testshm" 4096 w (-1) w' (trace w')
             "/testshm" 4096 (boot (fail_at 0)) (-1)
             (create_shared_memory "/testshm" 4096 (boot (fail_at 0))).2
             [EvShmOpen "/testshm" (-1); EvPerror "shm_open"]);
      reflexivity.
Defined.

(** * Runs *)

(** The three ways [create_shared_memory] fails, on a fresh process. *)
Example open_failure_run :
  let '(r, w) := create_shared_memory "/testshm" 4096 (boot (fail_at 0)) in
  r = Returned (-1) ∧
  trace w = [EvShmOpen "/testshm" (-1); EvPerror "shm_open"].
Proof. by vm_compute. Qed.

Example resize_failure_run :
  let '(r, w) := create_shared_memory "/testshm" 4096 (boot (fail_at 2)) in
  r = Returned (-1) ∧
  trace w = [EvShmOpen "/testshm" 3; EvFstat 3 0; EvFtruncate 3 4096 (-1);
             EvPerror "ftruncate"; EvClose 3 0].
Proof. by vm_compute. Qed.

Example stat_and_resize_failure_run :
  let '(r, w) := create_shared_memory "/testshm" 4096
                   (boot (λ n, Nat.eqb n 1 || Nat.eqb n 2)) in
  r = Returned (-1) ∧
  trace w = [EvShmOpen "/testshm" 3; EvFstat 3 (-1); EvPerror "fstat";
             EvFtruncate 3 4096 (-1); EvPerror "ftruncate"; EvClose 3 0].
Proof. by vm_compute. Qed.

(** The scenario of the specification: the sizes queried are 4096, 4096 and
    2048. *)
Example scenario_run :
  (scenario (boot no_faults)).1 = Returned (4096, 4096, 2048).
Proof. by vm_compute. Qed.

Example main_run :
  let '(r, w) := main (boot no_faults) in
  r = Returned 0 ∧ names w = ∅ ∧ fdtab w = fdtab (boot no_faults) ∧
  trace w = [EvShmOpen "/myshm" 3; EvFstat 3 0; EvFtruncate 3 1024 0;
             EvClose 3 0; EvShmUnlink "/myshm" 0].
Proof. by vm_compute. Qed.

(** * More about the wrappers

    Properties read off the code beyond those of the specification. *)

Lemma events_of_spec {A} (c : proc A) w evs :
  trace (c w).2 = trace w ++ evs → events_of c w = evs.
Proof. unfold events_of. intros ->. apply drop_app_length. Qed.

Lemma get_shared_memory_size_fails fd w :
  fault w = true ∨ fd_obj fd w ≫= (objs w !!.) = None ∨
    (∃ o s, fd_obj fd w = Some o ∧ objs w !! o = Some s ∧ LONG_MAX < Z.of_N s) →
  get_shared_memory_size fd w =
    (Returned (-1), printed "fstat" (called (EvFstat fd (-1)) w)).
Proof.
  unfold get_shared_memory_size, fstat, bind.
  intros [->|[->|(o & s & Ho & Hs & Hbig)]]; [done|by destruct (fault w)|].
  destruct (fault w); [done|]. rewrite Ho. simpl. rewrite Hs.
  destruct (Z.leb_spec (Z.of_N s) LONG_MAX); [lia|done].
Qed.

(** The resize and what follows it, from a state in which descriptor [n]
    is open on [o] and was free in [tab]. *)
Lemma resize_step n o size tab w2 :
  tab !! n = None → fdtab w2 = <[n := o]> tab →
  ∃ r w',
    (let* r := ftruncate (Z.of_nat n) size in
     if r =? -1
     then perror "ftruncate" ;; close (Z.of_nat n) ;; ret (-1)
     else ret (Z.of_nat n)) w2 = (Returned r, w') ∧
    oracle w' = oracle w2 ∧ names w' = names w2 ∧
    ((fault w2 = false ∧ 0 ≤ size ∧ r = Z.of_nat n ∧
      objs w' = <[o := Z.to_N size]> (objs w2) ∧ fdtab w' = fdtab w2 ∧
      clock w' = S (clock w2)) ∨
     ((fault w2 = true ∨ size < 0) ∧ r = -1 ∧
      objs w' = objs w2 ∧ fdtab w' = tab ∧ clock w' = S (S (clock w2)))).
Proof.
  intros Hfree Hfd.
  assert (Ho : fd_obj (Z.of_nat n) w2 = Some o)
    by (by rewrite fd_obj_of_nat, Hfd, lookup_insert_eq).
  assert (Hfail : ∃ r w',
    (perror "ftruncate" ;; close (Z.of_nat n) ;; ret (-1))
      (called (EvFtruncate (Z.of_nat n) size (-1)) w2) = (Returned r, w') ∧
    oracle w' = oracle w2 ∧ names w' = names w2 ∧ r = -1 ∧
    objs w' = objs w2 ∧ fdtab w' = tab ∧ clock w' = S (S (clock w2))).
  { unfold perror. erewrite bind_returned by reflexivity.
    destruct (close_opened n o (set_fdtab tab w2)
                (printed "ftruncate" (called (EvFtruncate (Z.of_nat n) size (-1)) w2)))
      as [c Hc]; [done..|].
    rewrite (bind_returned _ _ _ _ _ Hc). eexists _, _.
    split; [reflexivity|]. done. }
  unfold ftruncate, bind at 1.
  destruct (fault w2) eqn:Hf.
  { destruct Hfail as (r & w' & E & ? & ? & ? & ? & ? & ?).
    exists r, w'. split; [exact E|]. auto 10. }
  rewrite Ho. destruct (Z.ltb_spec size 0).
  { destruct Hfail as (r & w' & E & ? & ? & ? & ? & ? & ?).
    exists r, w'. split; [exact E|]. auto 10. }
  eexists _, _. split; [reflexivity|]. simpl. split; [done|]. split; [done|].
  left. done.
Qed.

Lemma create_shared_memory_effect name size w :
  ∃ r w', create_shared_memory name size w = (Returned r, w') ∧
    oracle w' = oracle w ∧ create_effect name size w r w'.
Proof.
  unfold create_shared_memory.
  destruct (shm_open_cases name w)
    as [[Hf E]|(Hf & o & w0 & E & Hn & Hfd & Hor & Hck & Htr & Hw0)];
    rewrite (bind_returned _ _ _ _ _ E); clear E.
  { eexists _, _. split; [reflexivity|]. split; [done|].
    by apply open_failed. }
  set (n := lowest_free (fdtab w)). rewrite fd_nonneg. rewrite Hfd.
  set (w1 := called _ _).
  assert (Hfree : fdtab w !! n = None) by apply lowest_free_None.
  assert (Hfd1 : fd_obj (Z.of_nat n) w1 = Some o) by apply fd_obj_opened.
  assert (names w0 = <[name := o]> (names w) ∧ resolved name w o (objs w0))
    as [Hnm Hres].
  { destruct Hw0 as [[Hex ->]|(Hno & -> & -> & ->)].
    - split; [by rewrite insert_id|]. by left.
    - split; [done|]. by right. }
  (* on from the size query when it has not shown a positive size *)
  assert (Hresize : ∀ w2,
    fdtab w2 = <[n := o]> (fdtab w) → names w2 = names w0 →
    objs w2 = objs w0 → oracle w2 = oracle w → clock w2 = S (S (clock w)) →
    ¬ sized_at w (objs w0) o →
    ∃ r w',
      (let* r := ftruncate (Z.of_nat n) size in
       if r =? -1
       then perror "ftruncate" ;; close (Z.of_nat n) ;; ret (-1)
       else ret (Z.of_nat n)) w2 = (Returned r, w') ∧
      oracle w' = oracle w ∧ create_effect name size w r w').
  { intros w2 Hfd2 Hn2 Hob2 Hor2 Hck2 Hns.
    destruct (resize_step n o size (fdtab w) w2 Hfree Hfd2)
      as (r & w' & E & Hor' & Hn' & Hcase).
    exists r, w'. split; [done|]. split; [congruence|].
    unfold fault in Hcase. rewrite Hor2, Hck2 in Hcase. unfold n in *.
    destruct Hcase as [(? & ? & ? & ? & ? & ?)|(? & ? & ? & ? & ?)].
    - apply (resized _ _ _ _ _ o (objs w0)); try done; congruence.
    - apply (resize_failed _ _ _ _ _ o (objs w0)); try done; congruence. }
  destruct (get_shared_memory_size_cases (Z.of_nat n) w1)
    as [(o' & s & Hf1 & Ho' & Hs & Hmax & E)|E].
  - rewrite (bind_returned _ _ _ _ _ E); clear E.
    assert (o' = o) as -> by congruence.
    unfold fault in Hf1. simpl in Hf1, Hs. rewrite Hor, Hck in Hf1.
    destruct (Z.gtb_spec (Z.of_N s) 0) as [Hpos|Hpos].
    + eexists _, _. split; [reflexivity|]. split; [done|].
      apply (attached _ _ _ _ _ o (objs w0)); try done.
      * split; [done|]. exists s. split; [done|lia].
      * simpl. by rewrite Hck.
    + apply Hresize; try done; [simpl; by rewrite Hck|].
      intros (_ & s' & Hs' & Hpos' & _). rewrite Hs in Hs'.
      injection Hs' as <-. lia.
  - assert (Hns : ¬ sized_at w (objs w0) o).
    { intros (Hf1 & s & Hs & Hpos & Hmax).
      rewrite (get_shared_memory_size_ok (Z.of_nat n) w1 o s) in E; try done.
      - injection E as E _. lia.
      - unfold fault. simpl. by rewrite Hor, Hck. }
    rewrite (bind_returned _ _ _ _ _ E); clear E.
    apply Hresize; try done. simpl. by rewrite Hck.
Qed.

Lemma unlink_shared_memory_effect name w :
  ∃ w', unlink_shared_memory name w = (Returned tt, w') ∧
    objs w' = objs w ∧ fdtab w' = fdtab w ∧ oracle w' = oracle w ∧
    clock w' = S (clock w) ∧
    ((fault w = false ∧ names w !! name ≠ None ∧
      names w' = delete name (names w) ∧
      trace w' = trace w ++ [EvShmUnlink name 0]) ∨
     ((fault w = true ∨ names w !! name = None) ∧ names w' = names w ∧
      trace w' = trace w ++ [EvShmUnlink name (-1); EvPerror "shm_unlink"])).
Proof.
  unfold unlink_shared_memory, shm_unlink, bind.
  destruct (fault w); [|destruct (names w !! name) eqn:Hn]; simpl;
    (eexists; split; [reflexivity|]); simpl; (do 4 (split; [done|])).
  - right. traces. auto.
  - left. done.
  - right. traces. auto.
Qed.

(** "alias", "/alias" and "//alias" are one name for the host. *)
Example strip_slashes_alias :
  strip_slashes "//alias" = "alias"%string ∧
  strip_slashes "/alias" = strip_slashes "alias" ∧
  strip_slashes "/myshm" ≠ strip_slashes "/testshm".
Proof. by vm_compute. Qed.

(** X1.  A call of [create_shared_memory] leaves every name that is another
    name for the host (one that differs from its own once the leading
    slashes are removed) bound as it was, and a name that already had an
    object keeps that object: the call never unlinks and never rebinds. *)
Theorem create_touches_only_its_name name size w :
  let w' := (create_shared_memory name size w).2 in
  (∀ name', strip_slashes name' ≠ strip_slashes name →
            names w' !! name' = names w !! name') ∧
  (∀ o, names w !! name = Some o → names w' !! name = Some o).
Proof.
  destruct (create_shared_memory_effect name size w) as (r & w' & -> & _ & H).
  simpl. split.
  - intros name' Hstrip.
    assert (Hne : name' ≠ name) by (intros ->; done).
    destruct H as [? ? -> | o ? ? ? ? ? -> | o ? ? ? ? ? ? ? -> | o ? ? ? ? ? ? ->];
      try done; by rewrite lookup_insert_ne.
  - intros o0 Hn.
    destruct H as [? ? -> | o ? ? Hres ? ? -> | o ? ? Hres ? ? ? ? -> | o ? ? Hres ? ? ? ->];
      try done; rewrite lookup_insert_eq;
      destruct Hres as [[? _]|[? _]]; congruence.
Qed.

Lemma create_touches_only_its_name_witness :
  let w := boot_with "/other" 4096 no_faults in
  let w' := (create_shared_memory "/testshm" 1024 w).2 in
  names w' !! "/other" = Some 1%nat.
Proof.
  intros w w'. unfold w'.
  rewrite (proj1 (create_touches_only_its_name "/testshm" 1024 w) "/other");
    [reflexivity | vm_compute; discriminate].
Defined.

(** X2.  A call of [create_shared_memory] changes the size of no object
    other than the one its name resolves to afterwards. *)
Theorem create_keeps_other_objects name size w o s :
  let w' := (create_shared_memory name size w).2 in
  objs w !! o = Some s → names w' !! name ≠ Some o → objs w' !! o = Some s.
Proof.
  destruct (create_shared_memory_effect name size w) as (r & w' & -> & _ & H).
  simpl. intros Hs Hne.
  assert (Hfresh : lowest_free (objs w) ≠ o).
  { intros <-. by rewrite lowest_free_None in Hs. }
  assert (Hobjs0 : ∀ o1 objs0, resolved name w o1 objs0 → objs0 !! o = Some s).
  { intros o1 objs0 [[_ ->]|(_ & -> & ->)]; [done|]. by rewrite lookup_insert_ne. }
  destruct H as [? ? ? -> | o1 ? ? Hres ? ? Hn -> | o1 ? ? Hres ? ? ? ? Hn -> | o1 ? ? Hres ? ? ? Hn ->];
    eauto.
  rewrite lookup_insert_ne; [eauto|].
  intros ->. apply Hne. rewrite Hn. apply lookup_insert_eq.
Qed.

Lemma create_keeps_other_objects_witness :
  let w := boot_with "/other" 4096 no_faults in
  let w' := (create_shared_memory "/testshm" 1024 w).2 in
  objs w' !! 1%nat = Some 4096%N.
Proof.
  intros w w'.
  apply (create_keeps_other_objects "/testshm" 1024 w 1%nat 4096%N);
    [reflexivity | vm_compute; discriminate].
Defined.

(** X3.  Descriptors.  A call of [create_shared_memory] that returns -1
    leaves the descriptor table as it was, whichever step failed; a call
    that succeeds adds exactly one descriptor, which was free before, open
    on the object of the name, and touches no other descriptor. *)
Theorem create_descriptor_accounting name size w :
  let r := (create_shared_memory name size w).1 in
  let w' := (create_shared_memory name size w).2 in
  (r = Returned (-1) ∧ fdtab w' = fdtab w) ∨
  (∃ n o, r = Returned (Z.of_nat n) ∧ fdtab w !! n = None ∧
          fdtab w' = <[n := o]> (fdtab w) ∧ names w' !! name = Some o).
Proof.
  destruct (create_shared_memory_effect name size w) as (r & w' & -> & _ & H).
  simpl.
  destruct H as [? -> ? ? ? | o ? ? ? ? -> Hn ? ? | o ? ? ? ? ? ? -> Hn ? ? | o ? ? ? ? ? -> ? ? ?];
    [by left| | |by left]; right;
    exists (lowest_free (fdtab w)), o;
    (split; [done|]); (split; [apply lowest_free_None|]);
    (split; [done|]); rewrite Hn; apply lookup_insert_eq.
Qed.

Lemma resolved_existing name w o o' objs0 :
  names w !! name = Some o → resolved name w o' objs0 →
  o' = o ∧ objs0 = objs w.
Proof. intros Hn [[? ->]|[? _]]; [split; congruence|congruence]. Qed.

Lemma resolved_fresh name w o' objs0 :
  names w !! name = None → resolved name w o' objs0 →
  o' = lowest_free (objs w) ∧ objs0 = <[o' := 0%N]> (objs w).
Proof. intros Hn [[? _]|(_ & -> & ->)]; [congruence|done]. Qed.

(** X4.  An object of size zero counts as not yet sized: when the name
    has an object of size 0 and the system calls go through, the call
    resizes that object to the requested size, and the size queried through
    the descriptor is the requested size. *)
Theorem zero_size_object_is_resized name size w o :
  names w !! name = Some o → objs w !! o = Some 0%N →
  quiet 4 w → 0 ≤ size ≤ LONG_MAX →
  ∃ fd w' w'',
    create_shared_memory name size w = (Returned fd, w') ∧ 0 ≤ fd ∧
    objs w' !! o = Some (Z.to_N size) ∧
    get_shared_memory_size fd w' = (Returned size, w'').
Proof.
  intros Hn Hs Hq Hrange.
  pose proof (quiet_at 4 w 0 Hq ltac:(lia)) as Hf0.
  pose proof (quiet_at 4 w 2 Hq ltac:(lia)) as Hf2.
  pose proof (quiet_at 4 w 3 Hq ltac:(lia)) as Hf3. simpl in Hf0, Hf2, Hf3.
  destruct (create_shared_memory_effect name size w) as (r & w' & E & Hor & H).
  assert (r = Z.of_nat (lowest_free (fdtab w)) ∧
          objs w' = <[o := Z.to_N size]> (objs w) ∧
          fdtab w' = <[lowest_free (fdtab w) := o]> (fdtab w) ∧
          clock w' = S (S (S (clock w)))) as (-> & Hobjs & Hfd & Hck).
  { destruct H as [Hf | o' ? ? Hres Hsz | o' ? ? Hres ? ? ? ? ? ? ? | ? ? ? ? ? [?|?]];
      unfold fault in *; try congruence; try lia.
    - destruct (resolved_existing _ _ _ _ _ Hn Hres) as [-> ->].
      destruct Hsz as (_ & s & Hs' & ? & _). rewrite Hs in Hs'.
      injection Hs' as <-. lia.
    - destruct (resolved_existing _ _ _ _ _ Hn Hres) as [-> ->]. done. }
  pose proof (get_shared_memory_size_ok (Z.of_nat (lowest_free (fdtab w))) w'
                o (Z.to_N size)) as Eq.
  rewrite of_to_N in Eq by lia.
  eexists _, _, _. split; [exact E|]. split; [lia|]. split.
  { rewrite Hobjs. apply lookup_insert_eq. }
  apply Eq.
  - unfold fault. by rewrite Hor, Hck.
  - by rewrite fd_obj_of_nat, Hfd, lookup_insert_eq.
  - rewrite Hobjs. apply lookup_insert_eq.
  - lia.
Qed.

Lemma zero_size_object_is_resized_witness :
  ∃ fd w' w'',
    create_shared_memory "/testshm" 8192 (boot_with "/testshm" 0 no_faults)
      = (Returned fd, w') ∧ 0 ≤ fd ∧
    objs w' !! 1%nat = Some (Z.to_N 8192) ∧
    get_shared_memory_size fd w' = (Returned 8192, w'').
Proof.
  apply (zero_size_object_is_resized "/testshm" 8192
           (boot_with "/testshm" 0 no_faults) 1%nat);
    [reflexivity | reflexivity | intros k _; reflexivity
    | unfold LONG_MAX; lia].
Defined.

(** X5.  When the name has an object, of whatever size, and the size query
    fails while the open and the resize go through, the call resizes that
    object to the requested size. *)
Theorem stat_failure_resizes_sized_object name size w o :
  names w !! name = Some o →
  fault w = false → oracle w (S (clock w)) = true →
  oracle w (S (S (clock w))) = false → 0 ≤ size →
  ∃ fd w',
    create_shared_memory name size w = (Returned fd, w') ∧ 0 ≤ fd ∧
    objs w' !! o = Some (Z.to_N size).
Proof.
  intros Hn Hf0 Hf1 Hf2 Hsz.
  destruct (create_shared_memory_effect name size w) as (r & w' & E & Hor & H).
  exists r, w'. split; [exact E|].
  destruct H as [Hf | o' ? ? Hres [Hf1' _] | o' ? ? Hres ? ? ? -> ? Hobjs ? ? | ? ? ? ? ? [?|?]];
    try congruence; try lia.
  destruct (resolved_existing _ _ _ _ _ Hn Hres) as [-> ->].
  split; [lia|]. rewrite Hobjs. apply lookup_insert_eq.
Qed.

Lemma stat_failure_resizes_sized_object_witness :
  ∃ fd w',
    create_shared_memory "/testshm" 8192
      (boot_with "/testshm" 4096 (fail_at 1)) = (Returned fd, w') ∧ 0 ≤ fd ∧
    objs w' !! 1%nat = Some (Z.to_N 8192).
Proof.
  apply (stat_failure_resizes_sized_object "/testshm" 8192
           (boot_with "/testshm" 4096 (fail_at 1)) 1%nat);
    [reflexivity | reflexivity | reflexivity | reflexivity | lia].
Defined.

(** X6.  A call on a new name that fails after the open has succeeded
    closes its descriptor but does not unlink: the name stays in the
    namespace, on a new object of size 0. *)
Theorem failed_resize_leaves_empty_object name size w :
  names w !! name = None → fault w = false →
  (create_shared_memory name size w).1 = Returned (-1) →
  let w' := (create_shared_memory name size w).2 in
  ∃ o, names w' !! name = Some o ∧ objs w' !! o = Some 0%N ∧
       objs w !! o = None ∧ fdtab w' = fdtab w.
Proof.
  intros Hn Hf0.
  destruct (create_shared_memory_effect name size w) as (r & w' & -> & Hor & H).
  simpl. intros [= ->].
  destruct H as [Hf | ? ? ? ? ? Hr | ? ? ? ? ? ? ? Hr | o ? ? Hres ? ? _ Hnm Hobjs Hfd _];
    try congruence; try lia.
  destruct (resolved_fresh _ _ _ _ Hn Hres) as [Ho ->].
  exists o. rewrite Hnm, Hobjs, !lookup_insert_eq.
  split; [done|]. split; [done|]. split; [|done].
  rewrite Ho. apply lowest_free_None.
Qed.

Lemma failed_resize_leaves_empty_object_witness :
  let w' := (create_shared_memory "/testshm" (-5) (boot no_faults)).2 in
  ∃ o, names w' !! "/testshm" = Some o ∧ objs w' !! o = Some 0%N ∧
       objs (boot no_faults) !! o = None ∧ fdtab w' = fdtab (boot no_faults).
Proof.
  apply (failed_resize_leaves_empty_object "/testshm" (-5) (boot no_faults));
    reflexivity.
Defined.

(** X7.  When no system call fails for an outside reason,
    [create_shared_memory] succeeds exactly when the requested size is not
    negative or the name already has an object of positive size (which is
    then opened without a resize). *)
Theorem create_succeeds_iff name size w :
  quiet 3 w →
  ∃ r w', create_shared_memory name size w = (Returned r, w') ∧
    (0 ≤ r ↔
     0 ≤ size ∨
     ∃ o s, names w !! name = Some o ∧ objs w !! o = Some s ∧
            0 < Z.of_N s ≤ LONG_MAX).
Proof.
  intros Hq.
  pose proof (quiet_at 3 w 0 Hq ltac:(lia)) as Hf0.
  pose proof (quiet_at 3 w 1 Hq ltac:(lia)) as Hf1.
  pose proof (quiet_at 3 w 2 Hq ltac:(lia)) as Hf2. simpl in Hf0, Hf1, Hf2.
  destruct (create_shared_memory_effect name size w) as (r & w' & E & Hor & H).
  exists r, w'. split; [exact E|].
  destruct H as [Hf | o ? ? Hres Hsz -> | o ? ? Hres ? ? ? -> | o ? ? Hres Hns [?|?] ->];
    unfold fault in *; try congruence.
  - split; [intros _|lia]. right.
    destruct Hsz as (_ & s & Hs & Hpos).
    destruct Hres as [[Hn ->]|(_ & -> & ->)].
    + eauto.
    + rewrite lookup_insert_eq in Hs. injection Hs as <-. lia.
  - split; [auto|lia].
  - split; [lia|]. intros [?|(o' & s & Hn & Hs & Hpos)]; [lia|].
    destruct (resolved_existing _ _ _ _ _ Hn Hres) as [-> ->].
    exfalso. apply Hns. split; eauto.
Qed.

Lemma create_succeeds_iff_witness :
  ∃ r w', create_shared_memory "/testshm" (-5)
            (boot_with "/testshm" 4096 no_faults) = (Returned r, w') ∧
    (0 ≤ r ↔
     0 ≤ -5 ∨
     ∃ o s, names (boot_with "/testshm" 4096 no_faults) !! "/testshm" = Some o ∧
            objs (boot_with "/testshm" 4096 no_faults) !! o = Some s ∧
            0 < Z.of_N s ≤ LONG_MAX).
Proof.
  apply (create_succeeds_iff "/testshm" (-5)
           (boot_with "/testshm" 4096 no_faults)).
  intros k _. reflexivity.
Defined.

(** X8.  Two successful calls in a row on the same name return two
    different descriptors, both open afterwards on the same object, the one
    the name resolves to. *)
Theorem second_open_takes_new_descriptor name size1 size2 w fd1 w1 fd2 w2 :
  create_shared_memory name size1 w = (Returned fd1, w1) → 0 ≤ fd1 →
  create_shared_memory name size2 w1 = (Returned fd2, w2) → 0 ≤ fd2 →
  fd1 ≠ fd2 ∧
  ∃ o, fd_obj fd1 w2 = Some o ∧ fd_obj fd2 w2 = Some o ∧
       names w2 !! name = Some o.
Proof.
  intros E1 Hfd1 E2 Hfd2.
  assert (Hopen : ∀ size w r w',
    create_shared_memory name size w = (Returned r, w') → 0 ≤ r →
    ∃ o, r = Z.of_nat (lowest_free (fdtab w)) ∧
         fdtab w' = <[lowest_free (fdtab w) := o]> (fdtab w) ∧
         names w' !! name = Some o ∧
         (∀ o', names w !! name = Some o' → o = o')).
  { clear. intros size w r w' E Hr.
    destruct (create_shared_memory_effect name size w) as (r0 & w0 & E0 & _ & H).
    rewrite E in E0. injection E0 as <- <-.
    destruct H as [? -> | o ? ? Hres ? ? Hn ? ? | o ? ? Hres ? ? ? ? Hn ? ? | ? ? ? ? ? ? ->];
      try lia; exists o; (split; [done|]); (split; [done|]);
      (split; [rewrite Hn; apply lookup_insert_eq|]);
      intros o' Hn'; by destruct (resolved_existing _ _ _ _ _ Hn' Hres). }
  destruct (Hopen _ _ _ _ E1 Hfd1) as (o1 & -> & Htab1 & Hn1 & _).
  destruct (Hopen _ _ _ _ E2 Hfd2) as (o2 & -> & Htab2 & Hn2 & Hsame).
  rewrite (Hsame o1 Hn1) in *.
  assert (Hne : lowest_free (fdtab w) ≠ lowest_free (fdtab w1)).
  { intros Heq. pose proof (lowest_free_None (fdtab w1)) as Hfree.
    rewrite <- Heq, Htab1, lookup_insert_eq in Hfree. discriminate. }
  split; [lia|]. exists o1.
  rewrite !fd_obj_of_nat, Htab2, lookup_insert_eq.
  rewrite lookup_insert_ne, Htab1, lookup_insert_eq by done. done.
Qed.

Lemma second_open_takes_new_descriptor_witness :
  let w := boot no_faults in
  let w1 := (create_shared_memory "/testshm" 4096 w).2 in
  let w2 := (create_shared_memory "/testshm" 8192 w1).2 in
  3 ≠ 4 ∧
  ∃ o, fd_obj 3 w2 = Some o ∧ fd_obj 4 w2 = Some o ∧
       names w2 !! "/testshm" = Some o.
Proof.
  intros w w1 w2.
  apply (second_open_takes_new_descriptor "/testshm" 4096 8192 w 3 w1 4 w2);
    [reflexivity | lia | reflexivity | lia].
Defined.

(** X10.  A descriptor outlives the name: after a first creation with a
    positive size and [unlink_shared_memory] on the name, the name is gone
    and the size queried through the descriptor is still the requested
    size. *)
Theorem descriptor_survives_unlink name size w :
  names w !! name = None → 0 < size ≤ LONG_MAX → quiet 5 w →
  ∃ fd w1 w2 w3,
    create_shared_memory name size w = (Returned fd, w1) ∧ 0 ≤ fd ∧
    unlink_shared_memory name w1 = (Returned tt, w2) ∧
    names w2 !! name = None ∧
    get_shared_memory_size fd w2 = (Returned size, w3).
Proof.
  intros Hn Hrange Hq.
  assert (Hq3 : quiet 3 w) by (eapply quiet_mono; [|done]; lia).
  pose proof (quiet_at 5 w 3 Hq ltac:(lia)) as Hf3.
  pose proof (quiet_at 5 w 4 Hq ltac:(lia)) as Hf4. simpl in Hf3, Hf4.
  rewrite (create_fresh name size w Hq3 Hn ltac:(lia)).
  set (w1 := called _ _).
  destruct (unlink_shared_memory_effect name w1)
    as (w2 & E2 & Hobjs & Hfd & Hor & Hck & [(_ & _ & Hnm & _)|([Hf|Hnone] & _)]).
  - pose proof (get_shared_memory_size_ok (Z.of_nat (lowest_free (fdtab w))) w2
                  (lowest_free (objs w)) (Z.to_N size)) as Eq.
    rewrite of_to_N in Eq by lia.
    eexists _, _, _, _. split; [reflexivity|]. split; [lia|].
    split; [exact E2|]. split; [by rewrite Hnm, lookup_delete_eq|].
    apply Eq.
    + unfold fault. by rewrite Hor, Hck.
    + rewrite fd_obj_of_nat, Hfd. simpl. apply lookup_insert_eq.
    + rewrite Hobjs. simpl. apply lookup_insert_eq.
    + lia.
  - unfold fault in Hf. simpl in Hf. congruence.
  - simpl in Hnone. by rewrite lookup_insert_eq in Hnone.
Qed.

Lemma descriptor_survives_unlink_witness :
  ∃ fd w1 w2 w3,
    create_shared_memory "/testshm" 4096 (boot no_faults) = (Returned fd, w1) ∧
    0 ≤ fd ∧
    unlink_shared_memory "/testshm" w1 = (Returned tt, w2) ∧
    names w2 !! "/testshm" = None ∧
    get_shared_memory_size fd w2 = (Returned 4096, w3).
Proof.
  apply (descriptor_survives_unlink "/testshm" 4096 (boot no_faults));
    [reflexivity | unfold LONG_MAX; lia | intros k _; reflexivity].
Defined.

(** X11.  After a call of [unlink_shared_memory] whose system call was not
    failed from outside, the name is absent, and a second call on the same
    name reports the failure of [shm_unlink], returns and changes no
    name. *)
Theorem second_unlink_fails name w :
  fault w = false →
  ∃ w1 w2,
    unlink_shared_memory name w = (Returned tt, w1) ∧
    names w1 !! name = None ∧
    unlink_shared_memory name w1 = (Returned tt, w2) ∧
    events_of (unlink_shared_memory name) w1 =
      [EvShmUnlink name (-1); EvPerror "shm_unlink"] ∧
    names w2 = names w1.
Proof.
  intros Hf.
  destruct (unlink_shared_memory_effect name w)
    as (w1 & E1 & _ & _ & _ & _ & Hcase).
  assert (Hn1 : names w1 !! name = None).
  { destruct Hcase as [(_ & _ & -> & _)|([?|Hn] & -> & _)];
      [apply lookup_delete_eq|congruence|done]. }
  destruct (unlink_shared_memory_effect name w1)
    as (w2 & E2 & _ & _ & _ & _ & [(_ & ? & _)|(_ & Hnm & Ht)]); [done|].
  exists w1, w2. split; [done|]. split; [done|]. split; [done|].
  split; [|done]. apply events_of_spec. by rewrite E2.
Qed.

Lemma second_unlink_fails_witness :
  ∃ w1 w2,
    unlink_shared_memory "/testshm" (boot_with "/testshm" 4096 no_faults)
      = (Returned tt, w1) ∧
    names w1 !! "/testshm" = None ∧
    unlink_shared_memory "/testshm" w1 = (Returned tt, w2) ∧
    events_of (unlink_shared_memory "/testshm") w1 =
      [EvShmUnlink "/testshm" (-1); EvPerror "shm_unlink"] ∧
    names w2 = names w1.
Proof.
  apply (second_unlink_fails "/testshm" (boot_with "/testshm" 4096 no_faults)).
  reflexivity.
Defined.

(** X14.  [unlink_shared_memory] changes no object size, no descriptor and
    no name that is another name for the host (one that differs from its
    own once the leading slashes are removed); when its system call is not
    failed from outside the name is absent afterwards, whether or not it
    existed. *)
Theorem unlink_touches_only_its_name name w :
  let w' := (unlink_shared_memory name w).2 in
  objs w' = objs w ∧ fdtab w' = fdtab w ∧
  (∀ name', strip_slashes name' ≠ strip_slashes name →
            names w' !! name' = names w !! name') ∧
  (fault w = false → names w' !! name = None).
Proof.
  destruct (unlink_shared_memory_effect name w)
    as (w' & -> & Hobjs & Hfd & _ & _ & Hcase). simpl.
  split; [done|]. split; [done|]. split.
  - intros name' Hstrip.
    assert (Hne : name' ≠ name) by (intros ->; done).
    destruct Hcase as [(_ & _ & -> & _)|(_ & -> & _)]; [|done].
    by rewrite lookup_delete_ne.
  - intros Hf.
    destruct Hcase as [(_ & _ & -> & _)|([?|Hn] & -> & _)];
      [apply lookup_delete_eq|congruence|done].
Qed.

Lemma unlink_touches_only_its_name_witness :
  let w := boot_with "/other" 4096 no_faults in
  let w' := (unlink_shared_memory "/testshm" w).2 in
  names w' !! "/testshm" = None ∧ names w' !! "/other" = Some 1%nat.
Proof.
  intros w w'. unfold w'. split.
  - apply (unlink_touches_only_its_name "/testshm" w). reflexivity.
  - rewrite (proj1 (proj2 (proj2 (unlink_touches_only_its_name "/testshm" w)))
               "/other"); [reflexivity | vm_compute; discriminate].
Defined.

(** [main], step by step. *)
Lemma main_steps w :
  ∃ r w1, create_shared_memory "/myshm" 1024 w = (Returned r, w1) ∧
    ((r < 0 ∧ main w = (Exited EXIT_FAILURE, w1)) ∨
     (0 ≤ r ∧ ∃ c w2 w3,
        close r w1 = (Returned c, w2) ∧
        unlink_shared_memory "/myshm" w2 = (Returned tt, w3) ∧
        main w = (Returned 0, w3))).
Proof.
  destruct (create_shared_memory_effect "/myshm" 1024 w) as (r & w1 & E & _).
  exists r, w1. split; [exact E|].
  unfold main. change (to_long 1024) with 1024.
  rewrite (bind_returned _ _ _ _ _ E).
  destruct (Z.ltb_spec r 0) as [Hneg|Hpos]; [by left|right].
  split; [done|].
  erewrite (bind_returned (ret tt)) by reflexivity.
  assert (∃ c w2, close r w1 = (Returned c, w2)) as (c & w2 & E2).
  { unfold close. destruct (fd_obj r w1); eauto. }
  destruct (unlink_shared_memory_effect "/myshm" w2) as (w3 & E3 & _).
  exists c, w2, w3. split; [done|]. split; [done|].
  rewrite (bind_returned _ _ _ _ _ E2), (bind_returned _ _ _ _ _ E3). done.
Qed.

(** X9.  In [get_shared_memory_size], [create_shared_memory],
    [unlink_shared_memory] and [main], the diagnostics printed are, in
    order, the names of the system calls that failed, [close] excepted
    (its result is never looked at): each failure is reported once and
    nothing else is printed. *)
Theorem diagnostics_match_failed_calls :
  (∀ fd w,
     omap diagnostic (events_of (get_shared_memory_size fd) w) =
     omap failed_call (events_of (get_shared_memory_size fd) w)) ∧
  (∀ name size w,
     omap diagnostic (events_of (create_shared_memory name size) w) =
     omap failed_call (events_of (create_shared_memory name size) w)) ∧
  (∀ name w,
     omap diagnostic (events_of (unlink_shared_memory name) w) =
     omap failed_call (events_of (unlink_shared_memory name) w)) ∧
  (∀ w,
     omap diagnostic (events_of main w) = omap failed_call (events_of main w)).
Proof.
  assert (Hfd : ∀ n, (Z.of_nat n =? -1) = false)
    by (intros n; apply Z.eqb_neq; lia).
  assert (Hcreate : ∀ name size w, ∃ evs,
    trace (create_shared_memory name size w).2 = trace w ++ evs ∧
    omap diagnostic evs = omap failed_call evs).
  { intros name size w.
    destruct (create_shared_memory_cases name size w)
      as (r & w' & E & _ & Hcase). rewrite E.
    destruct Hcase as [(_ & _ & Ht & _)|[(_ & Ht & _)|
      [(_ & [ok Ht] & _)|(_ & (ok & c & Ht) & _)]]];
      (eexists; split; [exact Ht|]);
      try destruct ok; simpl; rewrite ?Hfd; done. }
  assert (Hunlink : ∀ name w, ∃ evs,
    trace (unlink_shared_memory name w).2 = trace w ++ evs ∧
    omap diagnostic evs = omap failed_call evs).
  { intros name w.
    destruct (unlink_shared_memory_effect name w)
      as (w' & E & _ & _ & _ & _ & [(_ & _ & _ & Ht)|(_ & _ & Ht)]);
      rewrite E; (eexists; split; [exact Ht|]); done. }
  split; [|split; [|split]].
  - intros fd w.
    destruct (get_shared_memory_size_cases fd w)
      as [(o & s & _ & _ & _ & _ & E)|E];
      erewrite events_of_spec by (rewrite E; simpl; traces); done.
  - intros name size w. destruct (Hcreate name size w) as (evs & Ht & Heq).
    by rewrite (events_of_spec _ _ _ Ht).
  - intros name w. destruct (Hunlink name w) as (evs & Ht & Heq).
    by rewrite (events_of_spec _ _ _ Ht).
  - intros w. destruct (main_steps w) as (r & w1 & E1 & Hcase).
    destruct (Hcreate "/myshm" 1024 w) as (evs1 & Ht1 & Heq1).
    rewrite E1 in Ht1. simpl in Ht1.
    destruct Hcase as [[_ Em]|(_ & c & w2 & w3 & E2 & E3 & Em)].
    { erewrite events_of_spec by (rewrite Em; exact Ht1). done. }
    destruct (Hunlink "/myshm" w2) as (evs3 & Ht3 & Heq3).
    rewrite E3 in Ht3. simpl in Ht3.
    assert (Ht2 : ∃ c', trace w2 = trace w1 ++ [EvClose r c']).
    { revert E2. unfold close.
      destruct (fd_obj r w1); intros [= _ <-]; eauto. }
    destruct Ht2 as [c' Ht2].
    erewrite events_of_spec; last first.
    { rewrite Em. simpl. rewrite Ht3, Ht2, Ht1.
      rewrite <- !List.app_assoc. reflexivity. }
    rewrite !omap_app, Heq1, Heq3. done.
Qed.

(** X12.  [main] leaves the descriptor table as it found it, on every run:
    whether it exits with failure or returns, and whichever calls fail. *)
Theorem main_leaves_no_descriptor_open w :
  fdtab (main w).2 = fdtab w.
Proof.
  destruct (main_steps w) as (r & w1 & E1 & Hcase).
  destruct (create_shared_memory_effect "/myshm" 1024 w)
    as (r' & w1' & E1' & _ & H).
  rewrite E1 in E1'. injection E1' as <- <-.
  destruct Hcase as [[Hneg ->]|(Hpos & c & w2 & w3 & E2 & E3 & ->)]; simpl.
  - destruct H as [? ? ? ? ? | ? ? ? ? ? -> | ? ? ? ? ? ? ? -> | ]; try done; lia.
  - destruct (unlink_shared_memory_effect "/myshm" w2)
      as (w3' & E3' & _ & Hfd3 & _).
    rewrite E3 in E3'. injection E3' as <-. rewrite Hfd3.
    assert (∃ o, r = Z.of_nat (lowest_free (fdtab w)) ∧
                 fdtab w1 = <[lowest_free (fdtab w) := o]> (fdtab w))
      as (o & -> & Hfd1).
    { destruct H as [? -> | o | o | ? ? ? ? ? ? ->]; try lia; eauto. }
    destruct (close_opened (lowest_free (fdtab w)) o w w1
                (lowest_free_None _) Hfd1) as (c' & E2').
    rewrite E2 in E2'. by injection E2' as _ ->.
Qed.



(** X15.  A call of [create_shared_memory] starts with the [shm_open] of
    its name, makes at most four system calls (no call is tried again) and
    never calls [shm_unlink]. *)
Theorem create_call_pattern name size w :
  let evs := events_of (create_shared_memory name size) w in
  (∃ r rest, evs = EvShmOpen name r :: rest) ∧
  (length (List.filter is_syscall evs) ≤ 4)%nat ∧
  (∀ name' r, EvShmUnlink name' r ∉ evs).
Proof.
  destruct (create_shared_memory_cases name size w)
    as (r & w' & E & _ & Hcase).
  destruct Hcase as [(_ & _ & Ht & _)|[(_ & Ht & _)|
    [(_ & [ok Ht] & _)|(_ & (ok & c & Ht) & _)]]];
    erewrite events_of_spec by (rewrite E; exact Ht);
    try destruct ok; simpl;
    (split; [eauto|]); (split; [lia|]);
    intros name' r' Hin; in_list Hin.
Qed.
